(** * The 2026 Formula 1 season poster: a shallow embedding of [2026-season.py]

    The script lays out twelve month blocks on one page, underlines the
    days of every race weekend and lists the races of each month with a
    flag.  This development embeds the script's tables and functions and
    the parts of Python's [datetime] and [calendar] modules they call,
    and proves the properties stated about them.

    Integers are [Z]; lengths and coordinates are binary64 floats, as in
    Python; the flag cache is a finite map; the canvas is the list of the
    drawing operations issued; an exception is a [Raise] result. *)

From Stdlib Require Import ZArith List String Ascii Bool Lia.
From Stdlib Require Import DecimalString Permutation Sorted.
From Stdlib Require Import PrimFloat Uint63.
From stdpp Require Import base option list gmap strings.

Local Open Scope string_scope.
Local Open Scope list_scope.
Local Open Scope Z_scope.

(** ** Exceptions *)

Inductive exn : Set :=
| ValueError
| KeyError
| IndexError
| OverflowError
| IllegalMonthError.

Inductive result (A : Type) : Type :=
| Ok (a : A)
| Raise (e : exn).
Arguments Ok {A} a.
Arguments Raise {A} e.

#[global] Instance result_ret : MRet result := fun A a => Ok a.
#[global] Instance result_bind : MBind result := fun A B f r =>
  match r with
  | Ok a => f a
  | Raise e => Raise e
  end.

(** A [for] loop over a list whose body may raise and carries an
    accumulator. *)
Fixpoint for_each {A S : Type} (body : S -> A -> result S)
    (s : S) (l : list A) : result S :=
  match l with
  | [] => Ok s
  | a :: l' => s' ← body s a; for_each body s' l'
  end.

(** ** Python built-ins used by the script *)

Module py.

(** [range(n)] *)
Definition range (n : Z) : list Z := map Z.of_nat (seq 0 (Z.to_nat n)).

(** [range(start, stop)] for [start <= stop] *)
Definition range2 (start stop : Z) : list Z :=
  map (fun k => start + Z.of_nat k) (seq 0 (Z.to_nat (stop - start))).

(** [range(0, stop, step)] for a positive [step] *)
Definition range_step (stop step : Z) : list Z :=
  map (fun k => step * Z.of_nat k)
      (seq 0 (Z.to_nat ((stop + step - 1) / step))).

(** [l[i:j]] for [0 <= i <= j] *)
Definition slice {A} (l : list A) (i j : Z) : list A :=
  firstn (Z.to_nat (j - i)) (skipn (Z.to_nat i) l).

(** [l[i]]; a negative index counts from the end *)
Definition index {A} (l : list A) (i : Z) : result A :=
  let j := if i <? 0 then Z.of_nat (length l) + i else i in
  if j <? 0 then Raise IndexError
  else match nth_error l (Z.to_nat j) with
       | Some a => Ok a
       | None => Raise IndexError
       end.

(** The truth value of a string *)
Definition truthy (s : string) : bool :=
  match s with EmptyString => false | String _ _ => true end.

(** [[f(a) for a in l if ...]]: [f] answers [None] for an element the
    filter drops, and may raise. *)
Fixpoint list_comp {A B} (f : A -> result (option B)) (l : list A)
    : result (list B) :=
  match l with
  | [] => Ok []
  | a :: l' =>
      ob ← f a;
      rest ← list_comp f l';
      Ok (match ob with Some b => b :: rest | None => rest end)
  end.

(** [str(n)] on an integer *)
Definition str (n : Z) : string := NilZero.string_of_int (Z.to_int n).

(** [f"{n:02d}"] *)
Definition fmt_02d (n : Z) : string :=
  let s := str n in
  if (String.length s <? 2)%nat then String.append "0" s else s.

Definition upper_ascii (c : ascii) : ascii :=
  let n := nat_of_ascii c in
  if ((97 <=? n) && (n <=? 122))%nat then ascii_of_nat (n - 32) else c.

(** [s.upper()] on ASCII text *)
Fixpoint upper (s : string) : string :=
  match s with
  | EmptyString => EmptyString
  | String c s' => String (upper_ascii c) (upper s')
  end.

(** A [dict] in insertion order; keys are unique. *)
Fixpoint dict_get {K V} `{EqDecision K} (d : list (K * V)) (k : K)
    : option V :=
  match d with
  | [] => None
  | (k', v) :: d' => if decide (k' = k) then Some v else dict_get d' k
  end.

(** [d[k]] *)
Definition dict_item {K V} `{EqDecision K} (d : list (K * V)) (k : K)
    : result V :=
  match dict_get d k with
  | Some v => Ok v
  | None => Raise KeyError
  end.

(** [list.sort(key=...)]: a stable sort on an integer key.  Python's
    sort is stable, and a stable sort has one possible result, so
    insertion after the last element not greater stands for it. *)
Fixpoint insert_by {A} (key : A -> Z) (a : A) (l : list A) : list A :=
  match l with
  | [] => [a]
  | b :: l' => if key a <? key b then a :: b :: l'
               else b :: insert_by key a l'
  end.

Definition sort_by {A} (key : A -> Z) (l : list A) : list A :=
  fold_left (fun acc a => insert_by key a acc) l [].

End py.

(** ** [datetime]: proleptic Gregorian dates (CPython's [_pydatetime]) *)

Module datetime.

Definition MINYEAR : Z := 1.
Definition MAXYEAR : Z := 9999.
Definition _MAXORDINAL : Z := 3652059.

Definition _DAYS_IN_MONTH : list Z :=
  [-1; 31; 28; 31; 30; 31; 30; 31; 31; 30; 31; 30; 31].

Definition _DAYS_BEFORE_MONTH : list Z :=
  [-1; 0; 31; 59; 90; 120; 151; 181; 212; 243; 273; 304; 334].

Definition tbl (t : list Z) (i : Z) : Z := nth (Z.to_nat i) t 0.

Definition _is_leap (year : Z) : bool :=
  (year mod 4 =? 0) && (negb (year mod 100 =? 0) || (year mod 400 =? 0)).

Definition _days_before_year (year : Z) : Z :=
  let y := year - 1 in
  y * 365 + y / 4 - y / 100 + y / 400.

Definition _days_in_month (year month : Z) : Z :=
  if (month =? 2) && _is_leap year then 29 else tbl _DAYS_IN_MONTH month.

Definition _days_before_month (year month : Z) : Z :=
  tbl _DAYS_BEFORE_MONTH month
  + (if (2 <? month) && _is_leap year then 1 else 0).

Definition _ymd2ord (year month day : Z) : Z :=
  _days_before_year year + _days_before_month year month + day.

Definition _DI400Y : Z := 146097.
Definition _DI100Y : Z := 36524.
Definition _DI4Y : Z := 1461.

Record date : Set := mkdate { year : Z; month : Z; day : Z }.

Definition _ord2ymd (n0 : Z) : date :=
  let n := n0 - 1 in
  let n400 := n / _DI400Y in
  let n := n mod _DI400Y in
  let year := n400 * 400 + 1 in
  let n100 := n / _DI100Y in
  let n := n mod _DI100Y in
  let n4 := n / _DI4Y in
  let n := n mod _DI4Y in
  let n1 := n / 365 in
  let n := n mod 365 in
  let year := year + (n100 * 100 + n4 * 4 + n1) in
  if (n1 =? 4) || (n100 =? 4) then mkdate (year - 1) 12 31
  else
    let leapyear := (n1 =? 3) && (negb (n4 =? 24) || (n100 =? 3)) in
    let month := Z.shiftr (n + 50) 5 in
    let preceding :=
      tbl _DAYS_BEFORE_MONTH month
      + (if (2 <? month) && leapyear then 1 else 0) in
    if n <? preceding then
      let month := month - 1 in
      let preceding :=
        preceding
        - (tbl _DAYS_IN_MONTH month
           + (if (month =? 2) && leapyear then 1 else 0)) in
      mkdate year month (n - preceding + 1)
    else mkdate year month (n - preceding + 1).

(** [date(year, month, day)] *)
Definition new (y m d : Z) : result date :=
  if negb ((MINYEAR <=? y) && (y <=? MAXYEAR)) then Raise ValueError
  else if negb ((1 <=? m) && (m <=? 12)) then Raise ValueError
  else if negb ((1 <=? d) && (d <=? _days_in_month y m)) then Raise ValueError
  else Ok (mkdate y m d).

Definition toordinal (dt : date) : Z :=
  _ymd2ord (year dt) (month dt) (day dt).

Definition fromordinal (n : Z) : date := _ord2ymd n.

(** Monday is 0, Sunday is 6. *)
Definition weekday (dt : date) : Z := (toordinal dt + 6) mod 7.

(** [dt - timedelta(days=k)] *)
Definition sub_days (dt : date) (k : Z) : result date :=
  let o := toordinal dt + (- k) in
  if (0 <? o) && (o <=? _MAXORDINAL) then Ok (fromordinal o)
  else Raise OverflowError.

End datetime.

(** ** [calendar] *)

Module calendar.

Definition SUNDAY : Z := 6.
Definition February : Z := 2.

Definition mdays : list Z :=
  [0; 31; 28; 31; 30; 31; 30; 31; 31; 30; 31; 30; 31].

(** The month names of the default (English) locale. *)
Definition month_name : list string :=
  [""; "January"; "February"; "March"; "April"; "May"; "June"; "July";
   "August"; "September"; "October"; "November"; "December"].

Definition isleap (year : Z) : bool :=
  (year mod 4 =? 0) && (negb (year mod 100 =? 0) || (year mod 400 =? 0)).

Definition weekday (year month day : Z) : result Z :=
  let year :=
    if negb ((datetime.MINYEAR <=? year) && (year <=? datetime.MAXYEAR))
    then 2000 + year mod 400 else year in
  dt ← datetime.new year month day;
  Ok (datetime.weekday dt).

Definition monthrange (year month : Z) : result (Z * Z) :=
  if negb ((1 <=? month) && (month <=? 12)) then Raise IllegalMonthError
  else
    day1 ← weekday year month 1;
    let ndays :=
      datetime.tbl mdays month
      + (if (month =? February) && isleap year then 1 else 0) in
    Ok (day1, ndays).

(** [Calendar(firstweekday).itermonthdays(year, month)] *)
Definition itermonthdays (firstweekday year month : Z) : result (list Z) :=
  '(day1, ndays) ← monthrange year month;
  let days_before := (day1 - firstweekday) mod 7 in
  let days_after := (firstweekday - day1 - ndays) mod 7 in
  Ok (repeat 0 (Z.to_nat days_before)
      ++ py.range2 1 (ndays + 1)
      ++ repeat 0 (Z.to_nat days_after)).

(** [Calendar(firstweekday).monthdayscalendar(year, month)] *)
Definition monthdayscalendar (firstweekday year month : Z)
    : result (list (list Z)) :=
  days ← itermonthdays firstweekday year month;
  Ok (map (fun i => py.slice days i (i + 7))
          (py.range_step (Z.of_nat (length days)) 7)).

End calendar.

(** ** The script's tables *)

Definition race_table : Type := list ((Z * Z) * string).

Definition race_sundays : race_table :=
  [ ((3, 8), "AUSTRALIA");
    ((3, 15), "CHINA");
    ((3, 29), "JAPAN");
    ((4, 12), "BAHRAIN");
    ((4, 19), "SAUDI ARABIA");
    ((5, 3), "MIAMI");
    ((5, 24), "CANADA");
    ((6, 7), "MONACO");
    ((6, 14), "BARCELONA");
    ((6, 28), "AUSTRIA");
    ((7, 5), "GREAT BRITAIN");
    ((7, 19), "BELGIUM");
    ((7, 26), "HUNGARY");
    ((8, 23), "NETHERLANDS");
    ((9, 6), "ITALY");
    ((9, 13), "MADRID");
    ((9, 26), "AZERBAIJAN");
    ((10, 11), "SINGAPORE");
    ((10, 25), "AUSTIN");
    ((11, 1), "MEXICO");
    ((11, 8), "BRAZIL");
    ((11, 21), "LAS VEGAS");
    ((11, 29), "QATAR");
    ((12, 6), "ABU DHABI") ].

Definition COUNTRY_FLAG_CODES : gmap string string :=
  list_to_map
  [ ("AUSTRALIA", "au");
    ("CHINA", "cn");
    ("JAPAN", "jp");
    ("BAHRAIN", "bh");
    ("SAUDI ARABIA", "sa");
    ("MIAMI", "us");
    ("CANADA", "ca");
    ("MONACO", "mc");
    ("BARCELONA", "es");
    ("SPAIN (BARCELONA)", "es");
    ("AUSTRIA", "at");
    ("GREAT BRITAIN", "gb");
    ("BELGIUM", "be");
    ("HUNGARY", "hu");
    ("NETHERLANDS", "nl");
    ("ITALY", "it");
    ("MADRID", "es");
    ("AZERBAIJAN", "az");
    ("SINGAPORE", "sg");
    ("AUSTIN", "us");
    ("MEXICO", "mx");
    ("BRAZIL", "br");
    ("LAS VEGAS", "us");
    ("QATAR", "qa");
    ("ABU DHABI", "ae") ].

(** ** [month_weeks] and the padding of [draw_month] *)

Definition month_weeks (month : Z) : result (list (list Z)) :=
  calendar.monthdayscalendar calendar.SUNDAY 2026 month.

(** [while len(weeks) < 6: weeks.append([0] * 7)]; every turn makes the
    list longer, so [6 - len(weeks)] turns are all the loop can take. *)
Fixpoint pad_weeks_loop (turns : nat) (weeks : list (list Z))
    : list (list Z) :=
  match turns with
  | O => weeks
  | S turns' =>
      if (length weeks <? 6)%nat
      then pad_weeks_loop turns' (weeks ++ [repeat 0 7%nat])
      else weeks
  end.

Definition pad_weeks (weeks : list (list Z)) : list (list Z) :=
  pad_weeks_loop (6 - length weeks) weeks.

(** The day matrix [draw_month] renders. *)
Definition day_matrix (month : Z) : result (list (list Z)) :=
  weeks ← month_weeks month;
  Ok (pad_weeks weeks).

Definition count_days (weeks : list (list Z)) : nat :=
  length (List.filter (fun d => negb (d =? 0)) (concat weeks)).

(** The length of a month of a common year, from the calendar itself. *)
Definition days_in_month_2026 (month : Z) : Z :=
  match month with
  | 2 => 28
  | 4 | 6 | 9 | 11 => 30
  | _ => 31
  end.

(** ** The canvas

    A canvas is the sequence of the operations issued on it.  Integer
    arguments are given as the floats they denote. *)

Definition color : Set := string.

Record Theme : Set := mkTheme {
  paper : color;
  ink : color;
  ink_light : color;
  accent : color;
  grid : color;
  font : string;
  font_bold : string
}.

Definition theme : Theme :=
  {| paper := "#E4E2DC";
     ink := "#1A1A1A";
     ink_light := "#5C5A54";
     accent := "#C1121F";
     grid := "#CAC6BE";
     font := "Helvetica";
     font_bold := "Helvetica-Bold" |}.

Inductive image_source : Set :=
| FromFile (path : string)
| FromBytes (data : list Byte.byte).

(** An [ImageReader] object: [hid] is its identity. *)
Record handle : Set := mkhandle { hid : nat; hsrc : image_source }.

Inductive op : Set :=
| SetFillColor (c : color)
| SetStrokeColor (c : color)
| SetFont (name : string) (size : Z)
| SetLineWidth (w : float)
| Rect (x y w h : float) (stroke fill : Z)
| RoundRect (x y w h radius : float) (stroke fill : Z)
| Line (x1 y1 x2 y2 : float)
| DrawString (x y : float) (text : string)
| DrawCentredString (x y : float) (text : string)
| DrawImage (img : handle) (x y width height : float)
| ShowPage
| Save.

Definition is_Line (o : op) : bool :=
  match o with Line _ _ _ _ => true | _ => false end.

Definition is_DrawString (o : op) : bool :=
  match o with DrawString _ _ _ => true | _ => false end.

Definition is_RoundRect (o : op) : bool :=
  match o with RoundRect _ _ _ _ _ _ _ => true | _ => false end.

Definition is_ShowPage (o : op) : bool :=
  match o with ShowPage => true | _ => false end.

(** ** Numbers *)

Set Warnings "-inexact-float".

(** An [int] used where a [float] is expected. *)
Definition Zf (z : Z) : float :=
  if z <? 0 then PrimFloat.opp (PrimFloat.of_uint63 (Uint63.of_Z (- z)))
  else PrimFloat.of_uint63 (Uint63.of_Z z).

Definition inch : float := 72.0%float.
Definition WIDTH : float := (Zf 18 * inch)%float.
Definition HEIGHT : float := (Zf 24 * inch)%float.

(** ** The world outside the process

    What the file system, the network, the image decoder and the font
    metrics answer is not fixed by the script: they are the operations
    of a [Platform].  An operation that raises answers [None] or
    [false]. *)

Class Platform : Type := {
  World : Type;
  (** [c.stringWidth(text, font, size)] *)
  stringWidth : string -> string -> Z -> float;
  (** [local_path.exists()] *)
  path_exists : World -> string -> bool;
  (** does [ImageReader(str(local_path))] return? *)
  open_image_file : World -> string -> bool;
  (** does [ImageReader(BytesIO(data))] return? *)
  open_image_bytes : list Byte.byte -> bool;
  (** [urlopen(url, timeout=5).read()] *)
  urlopen_read : World -> string -> World * option (list Byte.byte);
  (** [flags_dir.mkdir(exist_ok=True)] *)
  mkdir : World -> string -> World * bool;
  (** [local_path.write_bytes(data)] *)
  write_bytes : World -> string -> list Byte.byte -> World * bool
}.

Inductive io_event : Set :=
| EvExists (path : string)
| EvOpenFile (path : string)
| EvUrlopen (url : string)
| EvMkdir (path : string)
| EvWrite (path : string).

Definition is_EvUrlopen (e : io_event) : bool :=
  match e with EvUrlopen _ => true | _ => false end.

(** ** The process state and [get_flag_image] *)

Section Flags.
Context {P : Platform}.

Record State : Type := mkState {
  _flag_cache : gmap string (option handle);
  next_id : nat;
  world : World;
  io_log : list io_event
}.

Definition log (e : io_event) (st : State) : State :=
  mkState (_flag_cache st) (next_id st) (world st) (io_log st ++ [e]).

Definition set_world (w : World) (st : State) : State :=
  mkState (_flag_cache st) (next_id st) w (io_log st).

(** [_flag_cache[cc] = v] *)
Definition cache_set (cc : string) (v : option handle) (st : State)
    : State :=
  mkState (<[cc := v]> (_flag_cache st)) (next_id st) (world st)
          (io_log st).

(** A new [ImageReader] object. *)
Definition new_handle (src : image_source) (st : State)
    : handle * State :=
  (mkhandle (next_id st) src,
   mkState (_flag_cache st) (S (next_id st)) (world st) (io_log st)).

Definition flags_dir : string := "flags".

Definition local_path_of (cc : string) : string :=
  String.append flags_dir (String.append "/" (String.append cc ".png")).

Definition url_of (cc : string) : string :=
  String.append "https://flagcdn.com/w80/" (String.append cc ".png").

(** The [except Exception] branch of the fetch. *)
Definition fetch_failed (cc : string) (st : State)
    : option handle * State :=
  (None, cache_set cc None st).

(** The second [try] block: fetch, store on disk, decode. *)
Definition fetch_flag (cc : string) (st : State) : option handle * State :=
  let url := url_of cc in
  let '(w1, r) := urlopen_read (world st) url in
  let st := set_world w1 (log (EvUrlopen url) st) in
  match r with
  | None => fetch_failed cc st
  | Some data =>
      let '(w2, made) := mkdir (world st) flags_dir in
      let st := set_world w2 (log (EvMkdir flags_dir) st) in
      if made then
        let '(w3, written) :=
          write_bytes (world st) (local_path_of cc) data in
        let st := set_world w3 (log (EvWrite (local_path_of cc)) st) in
        if written then
          if open_image_bytes data then
            let '(h, st) := new_handle (FromBytes data) st in
            (Some h, cache_set cc (Some h) st)
          else fetch_failed cc st
        else fetch_failed cc st
      else fetch_failed cc st
  end.

Definition get_flag_image (cc : string) (st : State)
    : option handle * State :=
  match _flag_cache st !! cc with
  | Some v => (v, st)
  | None =>
      let local_path := local_path_of cc in
      let st := log (EvExists local_path) st in
      if path_exists (world st) local_path then
        let st := log (EvOpenFile local_path) st in
        if open_image_file (world st) local_path then
          let '(h, st) := new_handle (FromFile local_path) st in
          (Some h, cache_set cc (Some h) st)
        else fetch_flag cc st
      else fetch_flag cc st
  end.

(** The number of network requests made so far. *)
Definition net_attempts (st : State) : nat :=
  length (List.filter is_EvUrlopen (io_log st)).

End Flags.

(** ** [draw_month] *)

Section Drawing.
Context {P : Platform}.

(** The module's global tables. *)
Variable races_tbl : race_table.
Variable flag_codes : gmap string string.

Local Open Scope float_scope.

(** The set of days to underline in the block of [month]. *)
Definition underline_days (month : Z) : result (gset (Z * Z)) :=
  for_each
    (fun (acc : gset (Z * Z)) '((m, d), _) =>
       if negb (m =? month)%Z then Ok acc
       else
         sun ← datetime.new 2026 m d;
         fri ← datetime.sub_days sun 2;
         sat ← datetime.sub_days sun 1;
         Ok (acc ∪ {[ (datetime.month fri, datetime.day fri) ]}
                 ∪ {[ (datetime.month sat, datetime.day sat) ]}
                 ∪ {[ (datetime.month sun, datetime.day sun) ]}))
    ∅ races_tbl.

(** The lengths every cell of the day grid is placed with. *)
Record Grid : Set := mkGrid {
  grid_left : float;
  grid_top : float;
  col_w : float;
  day_row_h : float;
  weekday_row_h : float
}.

(** The body of the two nested day loops, for the cell at row [r] and
    column [col] holding [day]. *)
Definition draw_day (th : Theme) (g : Grid) (month : Z)
    (underline : gset (Z * Z)) (r col day : Z) : list op :=
  if (day =? 0)%Z then []
  else
    let cell_x := grid_left g + Zf col * col_w g in
    let cell_top := grid_top g - weekday_row_h g - Zf r * day_row_h g in
    let cx := cell_x + col_w g / Zf 2 in
    let ty := cell_top - day_row_h g + Zf 3 in
    let day_str := py.str day in
    DrawCentredString cx ty day_str ::
    (if bool_decide ((month, day) ∈ underline) then
       let digit_width := stringWidth day_str (font th) 8 in
       let uy := ty - Zf 3 in
       [ SetStrokeColor (accent th);
         SetLineWidth 0.8;
         Line (cx - digit_width / Zf 2) uy (cx + digit_width / Zf 2) uy;
         SetStrokeColor (grid th);
         SetLineWidth 0.3 ]
     else []).

(** The day loops: one entry per cell, the day it holds and what is
    drawn for it. *)
Definition day_cells (th : Theme) (g : Grid) (month : Z)
    (weeks : list (list Z)) (underline : gset (Z * Z))
    : result (list (Z * list op)) :=
  rows ← py.list_comp
    (fun r =>
       week ← py.index weeks r;
       cells ← py.list_comp
         (fun col =>
            day ← py.index week col;
            Ok (Some (day, draw_day th g month underline r col day)))
         (py.range 7);
       Ok (Some cells))
    (py.range 6);
  Ok (concat rows).

(** [races] of [draw_month], sorted. *)
Definition month_races (month : Z) : result (list (Z * string)) :=
  races ← py.list_comp
    (fun '((m, d), _) =>
       if (m =? month)%Z then
         name ← py.dict_item races_tbl (month, d);
         Ok (Some (d, name))
       else Ok None)
    races_tbl;
  Ok (py.sort_by fst races).

(** The text of a race line, [f"{d:02d} – {name}"]. *)
Definition race_line (d : Z) (name : string) : string :=
  String.append (py.fmt_02d d) (String.append " – " name).

(** The loop over [races]. *)
Fixpoint draw_race_list (g_left text_indent list_y_top : float)
    (races : list (Z * string)) (st : State) : list op * State :=
  match races with
  | [] => ([], st)
  | (d, name) :: races' =>
      let '(flag, st) :=
        match flag_codes !! name with
        | Some cc =>
            if py.truthy cc then
              let '(img, st) := get_flag_image cc st in
              match img with
              | Some h =>
                  let flag_y := list_y_top - Zf 2 in
                  ([DrawImage h g_left flag_y (Zf 14) (Zf 10)], st)
              | None => ([], st)
              end
            else ([], st)
        | None => ([], st)
        end in
      let line := DrawString text_indent list_y_top (race_line d name) in
      let '(rest, st) :=
        draw_race_list g_left text_indent (list_y_top - Zf 10) races' st in
      (flag ++ line :: rest, st)
  end.

Definition weekdays : list string := ["S"; "M"; "T"; "W"; "T"; "F"; "S"].

(** [enumerate(l)] *)
Definition enumerate {A} (l : list A) : list (Z * A) :=
  combine (py.range (Z.of_nat (length l))) l.

(** What [draw_month] does before its loop over the races: the
    operations issued, then [grid_left], [text_indent], [list_y_top]
    and [races] as the loop starts with them. *)
Definition month_block (x y w h : float) (month : Z) (th : Theme)
    : result (list op * float * float * float * list (Z * string)) :=
  let text := ink th in
  let pad := 0.12 * inch in
  let header_h := 0.32 * inch in
  let list_h := 0.72 * inch in
  (* month name *)
  name ← py.index calendar.month_name month;
  let title :=
    [ SetFillColor text;
      SetFont (font th) 14;
      DrawString (x + pad) (y - pad - Zf 10) (py.upper name) ] in
  (* calendar grid area *)
  let g_top := y - pad - header_h in
  let g_left := x + pad in
  let grid_w := w - Zf 2 * pad in
  let grid_h := h - (pad + header_h + list_h + pad) in
  let wd_row_h := 0.11 * inch in
  let day_grid_h := grid_h - wd_row_h in
  let d_row_h := day_grid_h / 6.0 in
  let c_w := grid_w / 7.0 in
  let weekday_center_y := g_top - wd_row_h / Zf 2 in
  let header :=
    [ SetFont (font th) 8; SetFillColor (ink_light th) ]
    ++ map (fun '(col, wd) =>
              let cx := g_left + Zf col * c_w + c_w / Zf 2 in
              DrawCentredString cx (weekday_center_y - 2.5) wd)
           (enumerate weekdays) in
  (* grid lines *)
  let grid_bottom := g_top - wd_row_h - Zf 6 * d_row_h in
  let lines :=
    [ SetStrokeColor (grid th);
      SetLineWidth 0.3;
      Line g_left g_top (g_left + grid_w) g_top;
      Line g_left (g_top - wd_row_h) (g_left + grid_w) (g_top - wd_row_h) ]
    ++ map (fun r =>
              let yy := g_top - wd_row_h - Zf r * d_row_h in
              Line g_left yy (g_left + grid_w) yy)
           (py.range2 1 7)
    ++ map (fun col =>
              let xx := g_left + Zf col * c_w in
              Line xx g_top xx grid_bottom)
           (py.range2 0 8) in
  (* days *)
  weeks0 ← month_weeks month;
  let weeks := pad_weeks weeks0 in
  underline ← underline_days month;
  let g := mkGrid g_left g_top c_w d_row_h wd_row_h in
  cells ← day_cells th g month weeks underline;
  let days :=
    [ SetFont (font th) 8; SetFillColor text ]
    ++ concat (map snd cells) in
  (* race list under the calendar *)
  let gap_below_grid := 0.14 * inch in
  let list_y_top := grid_bottom - gap_below_grid in
  let flag_w := Zf 14 in
  let text_indent := g_left + flag_w + Zf 4 in
  races ← month_races month;
  Ok (title ++ header ++ lines ++ days
      ++ [ SetFillColor text; SetFont (font th) 8 ],
      g_left, text_indent, list_y_top, races).

(** Draws a month block whose top-left corner is [(x, y)]. *)
Definition draw_month (x y w h : float) (month : Z) (th : Theme)
    (st : State) : result (list op * State) :=
  '(ops, g_left, text_indent, list_y_top, races) ←
    month_block x y w h month th;
  let '(list_ops, st) :=
    draw_race_list g_left text_indent list_y_top races st in
  Ok (ops ++ list_ops, st).

(** ** [make_poster] *)

(** The two nested loops over the page grid, with the month counter
    they advance; [body] is what is done for one block. *)
Definition poster_loop (rows cols : Z)
    (body : Z -> Z -> Z -> State -> result (list op * State))
    (st : State) : result (Z * list op * State) :=
  for_each
    (fun acc r =>
       for_each
         (fun '(month, ops, st) col =>
            '(ops', st') ← body r col month st;
            Ok ((month + 1)%Z, ops ++ ops', st'))
         acc (py.range cols))
    (1%Z, [], st) (py.range rows).

Definition margin : float := 0.75 * inch.
Definition header_y : float := HEIGHT - margin.
Definition page_grid_top : float := header_y - Zf 80.
Definition page_grid_bottom : float := margin.
Definition page_grid_h : float := page_grid_top - page_grid_bottom.
Definition cols : Z := 3.
Definition rows : Z := 4.
Definition gap_x : float := 0.35 * inch.
Definition gap_y : float := 0.40 * inch.
Definition cell_w : float :=
  (WIDTH - Zf 2 * margin - Zf (cols - 1) * gap_x) / Zf cols.
Definition cell_h : float :=
  (page_grid_h - Zf (rows - 1) * gap_y) / Zf rows.

Definition block_x (col : Z) : float := margin + Zf col * (cell_w + gap_x).
Definition block_y (r : Z) : float := page_grid_top - Zf r * (cell_h + gap_y).

(** The outline of a block, drawn before the block. *)
Definition block_outline (th : Theme) (r col : Z) : list op :=
  [ SetStrokeColor (grid th);
    SetLineWidth 0.6;
    RoundRect (block_x col) (block_y r - cell_h) cell_w cell_h (Zf 10) 1 0 ].

(** The body of the loops of [make_poster]. *)
Definition draw_block (th : Theme) (r col month : Z) (st : State)
    : result (list op * State) :=
  '(ops, st) ← draw_month (block_x col) (block_y r) cell_w cell_h month th st;
  Ok (block_outline th r col ++ ops, st).

Definition background (th : Theme) : list op :=
  [ SetFillColor (paper th);
    Rect (Zf 0) (Zf 0) WIDTH HEIGHT 0 1;
    SetFillColor (ink th);
    SetFont (font_bold th) 42;
    DrawString margin (header_y - Zf 48) "2026 FORMULA 1 SEASON" ].

Definition make_poster (th : Theme) (st : State)
    : result (list op * State) :=
  '(_, blocks, st) ← poster_loop rows cols (draw_block th) st;
  Ok (background th ++ blocks ++ [ShowPage; Save], st).

End Drawing.

(** ** [draw_checkered] *)



(** ** Observations on what is drawn *)

Section Observations.
Context {P : Platform}.

Variable races_tbl : race_table.
Variable flag_codes : gmap string string.

Local Open Scope float_scope.

(** The cells of the block of [month] under which the underline is
    drawn, as the [(month, day)] pairs looked up in the underline set. *)
Definition rendered_underlines (th : Theme) (g : Grid) (month : Z)
    : result (list (Z * Z)) :=
  weeks ← day_matrix month;
  underline ← underline_days races_tbl month;
  cells ← day_cells th g month weeks underline;
  Ok (map (fun c => (month, fst c))
          (List.filter (fun c => existsb is_Line (snd c)) cells)).

(** The text lines of the race list, one per race, top to bottom. *)
Fixpoint race_lines (text_indent list_y_top : float)
    (races : list (Z * string)) : list op :=
  match races with
  | [] => []
  | (d, name) :: races' =>
      DrawString text_indent list_y_top (race_line d name)
      :: race_lines text_indent (list_y_top - Zf 10) races'
  end.

(** The races of a month, in table order. *)
Definition events_of (month : Z) : list (Z * string) :=
  map (fun e => (snd (fst e), snd e))
      (List.filter (fun e => (fst (fst e) =? month)%Z) races_tbl).

(** The blocks of a page grid in row-major order, with the month each
    one shows. *)
Definition row_major (rows cols : Z) : list (Z * Z * Z) :=
  flat_map
    (fun r => map (fun c => (r, c, (cols * r + c + 1)%Z)) (py.range cols))
    (py.range rows).

(** Running [body] on a list of blocks, one after the other. *)
Fixpoint run_blocks
    (body : Z -> Z -> Z -> State -> result (list op * State))
    (blocks : list (Z * Z * Z)) (ops : list op) (st : State)
    : result (list op * State) :=
  match blocks with
  | [] => Ok (ops, st)
  | (r, c, m) :: blocks' =>
      '(ops', st') ← body r c m st;
      run_blocks body blocks' (ops ++ ops') st'
  end.

(** A block without its flag images. *)
Definition block_static (th : Theme) (b : Z * Z * Z) : result (list op) :=
  let '(r, c, m) := b in
  '(ops, _, text_indent, list_y_top, races) ←
    month_block races_tbl (block_x c) (block_y r) cell_w cell_h m th;
  Ok (block_outline th r c ++ ops ++ race_lines text_indent list_y_top races).

(** The poster without its flag images. *)
Definition poster_static (th : Theme) : result (list op) :=
  blocks ← py.list_comp (fun b => ops ← block_static th b; Ok (Some ops))
                        (row_major rows cols);
  Ok (background th ++ concat blocks ++ [ShowPage; Save]).

(** A test on operations that never selects a flag image. *)
Definition image_blind (p : op -> bool) : Prop :=
  forall h x y w hh, p (DrawImage h x y w hh) = false.

(** Is [o] the text line of a race of the table? *)
Definition is_event_line (o : op) : bool :=
  match o with
  | DrawString _ _ t =>
      existsb (fun e => String.eqb t (race_line (snd (fst e)) (snd e)))
              races_tbl
  | _ => false
  end.

Definition count (p : op -> bool) (ops : list op) : nat :=
  length (List.filter p ops).

Definition op_x (o : op) : option float :=
  match o with
  | DrawString x _ _ => Some x
  | _ => None
  end.

(** The local stage of [get_flag_image] yields no image. *)
Definition local_stage_fails (w : World) (cc : string) : bool :=
  negb (path_exists w (local_path_of cc)
        && open_image_file w (local_path_of cc)).

(** The network stage of [get_flag_image] raises. *)
Definition fetch_fails (w : World) (cc : string) : bool :=
  match urlopen_read w (url_of cc) with
  | (_, None) => true
  | (w1, Some data) =>
      match mkdir w1 flags_dir with
      | (_, false) => true
      | (w2, true) =>
          match write_bytes w2 (local_path_of cc) data with
          | (_, false) => true
          | (_, true) => negb (open_image_bytes data)
          end
      end
  end.

(** Later calls of [get_flag_image] in the same run. *)
Definition get_flag_images (ccs : list string) (st : State) : State :=
  fold_left (fun st cc => snd (get_flag_image cc st)) ccs st.

Definition init_state (w : World) : State := mkState ∅ 0 w [].

End Observations.

(** ** Two platforms to run the script on *)

(** No flag on disk, no network. *)
Definition offline : Platform :=
  {| World := unit;
     stringWidth := fun _ _ _ => Zf 4;
     path_exists := fun _ _ => false;
     open_image_file := fun _ _ => false;
     open_image_bytes := fun _ => false;
     urlopen_read := fun w _ => (w, None);
     mkdir := fun w _ => (w, true);
     write_bytes := fun w _ _ => (w, true) |}.

(** No flag on disk; the network answers and the image decodes. *)
Definition online : Platform :=
  {| World := unit;
     stringWidth := fun _ _ _ => Zf 4;
     path_exists := fun _ _ => false;
     open_image_file := fun _ _ => false;
     open_image_bytes := fun _ => true;
     urlopen_read := fun w _ => (w, Some [Byte.x89; Byte.x50]);
     mkdir := fun w _ => (w, true);
     write_bytes := fun w _ _ => (w, true) |}.

(** ** Definitions the properties are stated with *)

(** [calendar.SATURDAY] *)
Definition SATURDAY : Z := 5.

(** The entries of the table that are not on a Sunday. *)
Definition off_sunday (tbl : race_table) : race_table :=
  List.filter
    (fun e =>
       match calendar.weekday 2026 (fst (fst e)) (snd (fst e)) with
       | Ok wd => negb (wd =? calendar.SUNDAY)
       | Raise _ => true
       end)
    tbl.

(** Does the lookup of [draw_month] give a code that is tried? *)
Definition has_flag_code (codes : gmap string string) (name : string)
    : bool :=
  match codes !! name with
  | Some cc => py.truthy cc
  | None => false
  end.

(** Ascending and strictly ascending by an integer key. *)
Definition le_key {A} (key : A -> Z) (a b : A) : Prop := key a <= key b.
Definition lt_key {A} (key : A -> Z) (a b : A) : Prop := key a < key b.

(** A table with a race whose name has no flag code, drawn offline. *)
Definition atlantis : race_table := [((3, 8), "ATLANTIS")].

Definition offline_start : @State offline := init_state (P := offline) tt.

Definition atlantis_ops : list op :=
  Eval vm_compute in
    match draw_month (P := offline) atlantis COUNTRY_FLAG_CODES
            0%float 0%float 400%float 400%float 3 theme offline_start with
    | Ok (ops, _) => ops
    | Raise _ => []
    end.

(** The first resolution on [online]: the local file is missing, the
    fetch succeeds. *)
Definition online_start : @State online := init_state (P := online) tt.

(** The blocks of one row from month [m] on, and of the rows [rs]. *)
Fixpoint row_from (r m : Z) (cs : list Z) : list (Z * Z * Z) :=
  match cs with
  | [] => []
  | c :: cs' => (r, c, m) :: row_from r (m + 1) cs'
  end.

Fixpoint grid_from (m : Z) (rs cs : list Z) : list (Z * Z * Z) :=
  match rs with
  | [] => []
  | r :: rs' =>
      row_from r m cs ++ grid_from (m + Z.of_nat (length cs)) rs' cs
  end.

(** The counts of block outlines, pages and race lines on the poster
    without its flag images. *)
Definition static_counts {P : Platform} : result (nat * nat * nat) :=
  ops ← poster_static race_sundays theme;
  Ok (count is_RoundRect ops, count is_ShowPage ops,
      count (is_event_line race_sundays) ops).

(** The body of the inner loop of [poster_loop], and a result with the
    month counter the loops end with. *)
Definition inner_loop {P : Platform}
    (body : Z -> Z -> Z -> State -> result (list op * State)) (r : Z)
    : Z * list op * State -> Z -> result (Z * list op * State) :=
  fun '(month, ops, st) col =>
    '(ops', st') ← body r col month st;
    Ok (month + 1, ops ++ ops', st').

Definition with_month {P : Platform} (m : Z)
    (res : result (list op * State)) : result (Z * list op * State) :=
  '(ops, st) ← res; Ok (m, ops, st).

(** ** Definitions the further properties are stated with *)


(** Is [e] a network request for the flag of [cc]? *)
Definition is_request_for (cc : string) (e : io_event) : bool :=
  match e with
  | EvUrlopen u => String.eqb u (url_of cc)
  | _ => false
  end.

(** The number of network requests made so far for the flag of [cc]. *)
Definition requests_for {P : Platform} (cc : string) (st : State) : nat :=
  length (List.filter (is_request_for cc) (io_log st)).

(** The codes the loop over [races] calls [get_flag_image] on, in
    order. *)
Definition codes_tried (codes : gmap string string)
    (races : list (Z * string)) : list string :=
  flat_map
    (fun race =>
       match codes !! snd race with
       | Some cc => if py.truthy cc then [cc] else []
       | None => []
       end)
    races.

(** The codes a whole poster calls [get_flag_image] on, in order. *)
Definition poster_codes (tbl : race_table) (codes : gmap string string)
    : list string :=
  flat_map (fun m => codes_tried codes (py.sort_by fst (events_of tbl m)))
           (py.range2 1 13).

(** A code that is not in the cache has not been requested, and no code
    has been requested twice. *)
Definition fetched_once {P : Platform} (st : State) : Prop :=
  forall cc,
    (requests_for cc st <= 1)%nat /\
    (_flag_cache st !! cc = None -> requests_for cc st = 0%nat).


(** The flag codes of the races of [race_sundays], in calendar order. *)
Definition race_codes : list string :=
  [ "au"; "cn"; "jp"; "bh"; "sa"; "us"; "ca"; "mc"; "es"; "at"; "gb"; "be";
    "hu"; "nl"; "it"; "es"; "az"; "sg"; "us"; "mx"; "br"; "us"; "qa"; "ae" ].

(** The dates of 2026, as (month, day). *)
Definition dates_2026 : list (Z * Z) :=
  flat_map
    (fun m => map (fun d => (m, d)) (py.range2 1 (days_in_month_2026 m + 1)))
    (py.range2 1 13).

(** Are two dates the same? *)
Definition date_eqb (a b : datetime.date) : bool :=
  (datetime.year a =? datetime.year b)
  && (datetime.month a =? datetime.month b)
  && (datetime.day a =? datetime.day b).

(** Going back [k] days from the [d]-th of month [m] of 2026 stays in
    the month, on day [d - k], when [k < d], and leaves the month
    otherwise. *)
Definition sub_days_check (k : Z) (md : Z * Z) : bool :=
  match datetime.sub_days (datetime.mkdate 2026 (fst md) (snd md)) k with
  | Ok dt =>
      if k <? snd md
      then date_eqb dt (datetime.mkdate 2026 (fst md) (snd md - k))
      else negb (datetime.month dt =? fst md)
  | Raise _ => false
  end.

(** The body of the loop of [underline_days]. *)
Definition underline_step (month : Z)
    : gset (Z * Z) -> (Z * Z) * string -> result (gset (Z * Z)) :=
  fun (acc : gset (Z * Z)) '((m, d), _) =>
    if negb (m =? month)%Z then Ok acc
    else
      sun ← datetime.new 2026 m d;
      fri ← datetime.sub_days sun 2;
      sat ← datetime.sub_days sun 1;
      Ok (acc ∪ {[ (datetime.month fri, datetime.day fri) ]}
              ∪ {[ (datetime.month sat, datetime.day sat) ]}
              ∪ {[ (datetime.month sun, datetime.day sun) ]}).

(** The entries of [month] in a table are dates of 2026. *)
Definition month_dates_valid (tbl : race_table) (month : Z) : Prop :=
  forall d name,
    In ((month, d), name) tbl -> 1 <= d <= days_in_month_2026 month.

(** The cells of a matrix that hold a day, in reading order. *)
Definition nonzero_days (weeks : list (list Z)) : list Z :=
  List.filter (fun d => negb (d =? 0)) (concat weeks).

(** Is [o] a flag image? *)
Definition is_DrawImage (o : op) : bool :=
  match o with DrawImage _ _ _ _ _ => true | _ => false end.

(** An operation that is neither a text line nor a flag image. *)
Definition is_plain (o : op) : bool :=
  negb (is_DrawString o) && negb (is_DrawImage o).

(** The table has no entry for [month]. *)
Definition no_race_in (tbl : race_table) (month : Z) : Prop :=
  forall d name, ~ In ((month, d), name) tbl.

(** The weekday of column [c] of a Sunday-first week, Monday being 0. *)
Definition column_weekday (c : Z) : Z := (c + 6) mod 7.

(** [calendar.day_name] in the default (English) locale. *)
Definition day_name : list string :=
  [ "Monday"; "Tuesday"; "Wednesday"; "Thursday"; "Friday"; "Saturday";
    "Sunday" ].

(** The first letter of a name. *)
Definition initial (s : string) : string := String.substring 0 1 s.

(** [list_y_top] as [draw_month] computes it for a block of top edge
    [y] and height [h]. *)
Definition list_y_top_of (y h : float) : float :=
  let pad := PrimFloat.mul 0.12 inch in
  let header_h := PrimFloat.mul 0.32 inch in
  let list_h := PrimFloat.mul 0.72 inch in
  let g_top := PrimFloat.sub (PrimFloat.sub y pad) header_h in
  let grid_h :=
    PrimFloat.sub h
      (PrimFloat.add
         (PrimFloat.add (PrimFloat.add pad header_h) list_h) pad) in
  let wd_row_h := PrimFloat.mul 0.11 inch in
  let d_row_h := PrimFloat.div (PrimFloat.sub grid_h wd_row_h) 6.0 in
  let grid_bottom :=
    PrimFloat.sub (PrimFloat.sub g_top wd_row_h)
                  (PrimFloat.mul (Zf 6) d_row_h) in
  PrimFloat.sub grid_bottom (PrimFloat.mul 0.14 inch).

(** The baseline of the race line number [k], the first being 0. *)
Fixpoint line_y (ly : float) (k : nat) : float :=
  match k with
  | O => ly
  | S k' => line_y (PrimFloat.sub ly (Zf 10)) k'
  end.

(** The lower edge of the blocks of page row [r]. *)
Definition block_bottom (r : Z) : float := PrimFloat.sub (block_y r) cell_h.

(** The march block of the poster of [atlantis], drawn offline. *)
Definition atlantis_block : list op :=
  Eval vm_compute in
    match draw_block (P := offline) atlantis COUNTRY_FLAG_CODES theme 0 2 3
            offline_start with
    | Ok (ops, _) => ops
    | Raise _ => []
    end.

(** Is [e] a write of the flag file of [cc]? *)
Definition is_write_for (cc : string) (e : io_event) : bool :=
  match e with
  | EvWrite p => String.eqb p (local_path_of cc)
  | _ => false
  end.

(** The number of writes of the flag file of [cc] so far. *)
Definition writes_for {P : Platform} (cc : string) (st : State) : nat :=
  length (List.filter (is_write_for cc) (io_log st)).

(** Every file written was requested first, and no file twice. *)
Definition written_after_fetch {P : Platform} (st : State) : Prop :=
  forall cc, (writes_for cc st <= requests_for cc st)%nat.

(** The race list as drawn when every flag is taken from [cache]. *)
Fixpoint race_list_with (cache : gmap string (option handle))
    (codes : gmap string string) (gl ti ly : float)
    (races : list (Z * string)) : list op :=
  match races with
  | [] => []
  | (d, name) :: races' =>
      match codes !! name with
      | Some cc =>
          if py.truthy cc then
            match cache !! cc with
            | Some (Some h) =>
                [DrawImage h gl (PrimFloat.sub ly (Zf 2)) (Zf 14) (Zf 10)]
            | _ => []
            end
          else []
      | None => []
      end
      ++ DrawString ti ly (race_line d name)
         :: race_list_with cache codes gl ti (PrimFloat.sub ly (Zf 10)) races'
  end.

(** [st'] has every cache entry of [st]. *)
Definition extends {P : Platform} (st st' : State) : Prop :=
  forall cc v,
    _flag_cache st !! cc = Some v -> _flag_cache st' !! cc = Some v.

(** A block of the poster as drawn when every flag is taken from
    [cache]. *)
Definition block_with {P : Platform} (tbl : race_table)
    (codes : gmap string string) (cache : gmap string (option handle))
    (th : Theme) (b : Z * Z * Z) : result (list op) :=
  let '(r, c, m) := b in
  '(ops, grid_left, text_indent, list_y_top, races) ←
    month_block tbl (block_x c) (block_y r) cell_w cell_h m th;
  Ok (block_outline th r c ++ ops
      ++ race_list_with cache codes grid_left text_indent list_y_top races).

(** The poster as drawn when every flag is taken from [cache]. *)
Definition poster_with {P : Platform} (tbl : race_table)
    (codes : gmap string string) (cache : gmap string (option handle))
    (th : Theme) : result (list op) :=
  blocks ← py.list_comp
             (fun b => ops ← block_with tbl codes cache th b; Ok (Some ops))
             (row_major rows cols);
  Ok (background th ++ concat blocks ++ [ShowPage; Save]).

(** The two decimal digits of [d]. *)
Definition two_digits (d : Z) : string :=
  String (ascii_of_nat (48 + Z.to_nat (d / 10)))
    (String (ascii_of_nat (48 + Z.to_nat (d mod 10))) EmptyString).

(** The script's poster, drawn on [online] from an empty cache. *)
Definition online_poster : result (list op * @State online) :=
  make_poster (P := online) race_sundays COUNTRY_FLAG_CODES theme
    online_start.

(** * Properties *)

Lemma Ok_inj {A} (a b : A) : Ok a = Ok b -> a = b.
Proof. intros H. congruence. Qed.

(** ** The race table and the calendar *)

(** C1: not every date of the race table is a Sunday: the script's own
    calendar puts 26 September 2026 and 21 November 2026, the dates of
    AZERBAIJAN and LAS VEGAS, on a Saturday; every other date of the
    table is a Sunday. *)
Theorem race_sundays_has_saturdays :
  calendar.weekday 2026 9 26 = Ok SATURDAY /\
  calendar.weekday 2026 11 21 = Ok SATURDAY /\
  off_sunday race_sundays
  = [ ((9, 26), "AZERBAIJAN"); ((11, 21), "LAS VEGAS") ].
Proof. repeat split; vm_compute; reflexivity. Qed.

(** C3: for every month 1 to 12 the day matrix that is rendered has 6
    rows of 7 cells, and as many non-zero cells as the month of 2026 has
    days. *)
Theorem day_matrix_shape (month : Z) :
  1 <= month <= 12 ->
  exists weeks,
    day_matrix month = Ok weeks /\
    length weeks = 6%nat /\
    Forall (fun week => length week = 7%nat) weeks /\
    Z.of_nat (count_days weeks) = days_in_month_2026 month.
Proof.
  intros Hm.
  assert (Hcases : In month (py.range2 1 13)).
  { apply in_map_iff. exists (Z.to_nat (month - 1)). split; [lia|].
    apply in_seq. simpl. lia. }
  simpl in Hcases.
  repeat (destruct Hcases as [<- | Hcases];
          [ eexists; split; [vm_compute; reflexivity|];
            repeat split; repeat constructor | ]).
  destruct Hcases.
Qed.

Lemma day_matrix_shape_witness :
  exists weeks,
    day_matrix 2 = Ok weeks /\
    length weeks = 6%nat /\
    Forall (fun week => length week = 7%nat) weeks /\
    Z.of_nat (count_days weeks) = days_in_month_2026 2.
Proof. apply (day_matrix_shape 2). lia. Defined.

(** ** Flag codes of the table *)

Lemma race_sundays_all_coded :
  forallb (fun e => has_flag_code COUNTRY_FLAG_CODES (snd e)) race_sundays
  = true.
Proof. vm_compute. reflexivity. Qed.

(** C10: every event name of the race table is a key of the country-code
    mapping, with a non-empty code, so for a race of the table the loop
    of [draw_month] never takes the branch that leaves the flag slot
    blank without resolving: it calls [get_flag_image] on the code. *)
Theorem race_names_have_flag_codes (key : Z * Z) (name : string) :
  In (key, name) race_sundays ->
  exists cc,
    COUNTRY_FLAG_CODES !! name = Some cc /\
    py.truthy cc = true /\
    forall (P : Platform) gl ti ly d rest st,
      draw_race_list COUNTRY_FLAG_CODES gl ti ly ((d, name) :: rest) st
      = let '(img, st1) := get_flag_image cc st in
        let '(ops, st2) :=
          draw_race_list COUNTRY_FLAG_CODES gl ti
            (PrimFloat.sub ly (Zf 10)) rest st1 in
        (match img with
         | Some h => [DrawImage h gl (PrimFloat.sub ly (Zf 2)) (Zf 14) (Zf 10)]
         | None => []
         end ++ DrawString ti ly (race_line d name) :: ops, st2).
Proof.
  intros Hin.
  pose proof race_sundays_all_coded as Hall.
  rewrite forallb_forall in Hall.
  specialize (Hall _ Hin). unfold has_flag_code in Hall. cbn [snd] in Hall.
  destruct (COUNTRY_FLAG_CODES !! name) as [cc|] eqn:Hcc; [|discriminate].
  exists cc. split; [reflexivity|]. split; [assumption|].
  intros P gl ti ly d rest st. cbn [draw_race_list].
  rewrite Hcc, Hall.
  destruct (get_flag_image cc st) as [[h|] st1]; reflexivity.
Qed.

Lemma race_names_have_flag_codes_witness :
  exists cc,
    COUNTRY_FLAG_CODES !! "MIAMI" = Some cc /\
    py.truthy cc = true /\
    forall (P : Platform) gl ti ly d rest st,
      draw_race_list COUNTRY_FLAG_CODES gl ti ly ((d, "MIAMI") :: rest) st
      = let '(img, st1) := get_flag_image cc st in
        let '(ops, st2) :=
          draw_race_list COUNTRY_FLAG_CODES gl ti
            (PrimFloat.sub ly (Zf 10)) rest st1 in
        (match img with
         | Some h => [DrawImage h gl (PrimFloat.sub ly (Zf 2)) (Zf 14) (Zf 10)]
         | None => []
         end ++ DrawString ti ly (race_line d "MIAMI") :: ops, st2).
Proof.
  apply (race_names_have_flag_codes (5, 3) "MIAMI").
  vm_compute. tauto.
Defined.

(** ** Sorting the races of a month *)

Section Sorting.
Context {A : Type} (key : A -> Z).

Lemma insert_by_perm (a : A) (l : list A) :
  Permutation (py.insert_by key a l) (a :: l).
Proof.
  induction l as [|b l IH]; simpl.
  - reflexivity.
  - destruct (key a <? key b).
    + reflexivity.
    + rewrite IH. apply perm_swap.
Qed.

Lemma insert_by_sorted (a : A) (l : list A) :
  StronglySorted (le_key key) l ->
  StronglySorted (le_key key) (py.insert_by key a l).
Proof.
  induction 1 as [|b l Hs IH Hb]; simpl.
  - repeat constructor.
  - destruct (Z.ltb_spec (key a) (key b)) as [Hlt|Hge].
    + constructor; [constructor; assumption|].
      constructor; [unfold le_key; lia|].
      eapply List.Forall_impl; [|exact Hb]. unfold le_key. intros; lia.
    + constructor; [assumption|].
      eapply Permutation_Forall; [symmetry; apply insert_by_perm|].
      constructor; [unfold le_key; lia|assumption].
Qed.

Lemma sort_acc_perm (l acc : list A) :
  Permutation (fold_left (fun acc a => py.insert_by key a acc) l acc)
              (acc ++ l).
Proof.
  revert acc. induction l as [|a l IH]; intros acc; simpl.
  - rewrite app_nil_r. reflexivity.
  - rewrite IH, insert_by_perm. apply Permutation_middle.
Qed.

Lemma sort_acc_sorted (l acc : list A) :
  StronglySorted (le_key key) acc ->
  StronglySorted (le_key key)
    (fold_left (fun acc a => py.insert_by key a acc) l acc).
Proof.
  revert acc. induction l as [|a l IH]; intros acc Hacc; simpl.
  - assumption.
  - apply IH, insert_by_sorted, Hacc.
Qed.

Lemma sort_by_perm (l : list A) : Permutation (py.sort_by key l) l.
Proof. unfold py.sort_by. apply (sort_acc_perm l []). Qed.

Lemma sort_by_sorted (l : list A) :
  StronglySorted (le_key key) (py.sort_by key l).
Proof. unfold py.sort_by. apply sort_acc_sorted. constructor. Qed.

(** Without two equal keys, ascending is strictly ascending. *)
Lemma sorted_nodup_strict (l : list A) :
  StronglySorted (le_key key) l ->
  List.NoDup (map key l) ->
  StronglySorted (lt_key key) l.
Proof.
  induction 1 as [|a l Hs IH Ha]; simpl; intros Hnd.
  - constructor.
  - apply NoDup_cons_iff in Hnd as [Hnotin Hnd].
    constructor; [apply IH, Hnd|].
    rewrite List.Forall_forall in Ha |- *.
    intros b Hb. specialize (Ha b Hb). unfold le_key in Ha. unfold lt_key.
    assert (key a <> key b).
    { intros Heq. apply Hnotin. rewrite Heq. apply in_map, Hb. }
    lia.
Qed.

End Sorting.

(** ** The races of a month *)

Section MonthRaces.
Variable tbl : race_table.
Hypothesis keys_unique : List.NoDup (map fst tbl).

Lemma dict_get_in {V} (d : list ((Z * Z) * V)) (k : Z * Z) (v : V) :
  List.NoDup (map fst d) -> In (k, v) d -> py.dict_get d k = Some v.
Proof.
  induction d as [|[k' v'] d IH]; simpl; intros Hnd Hin; [contradiction|].
  apply NoDup_cons_iff in Hnd as [Hnotin Hnd].
  destruct (decide (k' = k)) as [->|Hne].
  - destruct Hin as [Heq|Hin]; [congruence|].
    exfalso. apply Hnotin. apply (in_map fst) in Hin. exact Hin.
  - destruct Hin as [Heq|Hin]; [congruence|]. apply IH; assumption.
Qed.

Lemma races_comp_ok (month : Z) (l : race_table) :
  (forall e, In e l -> In e tbl) ->
  py.list_comp
    (fun '((m, d), _) =>
       if m =? month then
         name ← py.dict_item tbl (month, d);
         Ok (Some (d, name))
       else Ok None) l
  = Ok (events_of l month).
Proof.
  induction l as [|[[m d] n] l IH]; intros Hincl; [reflexivity|].
  cbn [py.list_comp]. rewrite IH by (intros e He; apply Hincl; right; exact He).
  unfold events_of. cbn [List.filter fst snd].
  destruct (Z.eqb_spec m month) as [->|Hne]; [|reflexivity].
  unfold py.dict_item.
  rewrite (dict_get_in tbl (month, d) n keys_unique)
    by (apply Hincl; left; reflexivity).
  reflexivity.
Qed.

Lemma month_races_eq (month : Z) :
  month_races tbl month = Ok (py.sort_by fst (events_of tbl month)).
Proof.
  unfold month_races. rewrite races_comp_ok by auto. reflexivity.
Qed.

Lemma events_of_in (l : race_table) (month d : Z) (name : string) :
  In (d, name) (events_of l month) <-> In ((month, d), name) l.
Proof.
  unfold events_of. rewrite in_map_iff. split.
  - intros [[[m d'] n] [Heq Hin]]. apply filter_In in Hin as [Hin Hm].
    cbn in Heq, Hm. apply Z.eqb_eq in Hm. congruence.
  - intros Hin. exists ((month, d), name). split; [reflexivity|].
    apply filter_In. split; [exact Hin|]. cbn. apply Z.eqb_refl.
Qed.

Lemma events_of_days_unique (l : race_table) (month : Z) :
  List.NoDup (map fst l) -> List.NoDup (map fst (events_of l month)).
Proof.
  induction l as [|[[m d] n] l IH]; intros Hnd; [constructor|].
  cbn in Hnd. apply NoDup_cons_iff in Hnd as [Hnotin Hnd].
  unfold events_of. cbn [List.filter fst snd].
  destruct (Z.eqb_spec m month) as [->|Hne]; [|apply IH, Hnd].
  cbn [map fst snd]. constructor; [|apply IH, Hnd].
  intros Hin. apply in_map_iff in Hin as [[d' n'] [Heq Hin]].
  cbn in Heq. subst d'. apply events_of_in in Hin.
  apply Hnotin. apply (in_map fst) in Hin. exact Hin.
Qed.

(** The races of a month are the month's entries, each once, by
    strictly ascending day. *)
Lemma month_races_spec (month : Z) :
  exists races,
    month_races tbl month = Ok races /\
    Permutation races (events_of tbl month) /\
    StronglySorted (lt_key fst) races.
Proof.
  exists (py.sort_by fst (events_of tbl month)).
  split; [apply month_races_eq|]. split; [apply sort_by_perm|].
  apply sorted_nodup_strict; [apply sort_by_sorted|].
  eapply Permutation_NoDup.
  - apply Permutation_map. symmetry. apply sort_by_perm.
  - apply events_of_days_unique, keys_unique.
Qed.

End MonthRaces.

(** ** The race list as drawn *)

Section RaceList.
Context {P : Platform}.
Variable codes : gmap string string.

Lemma filter_race_lines (ti ly : float) (races : list (Z * string)) :
  List.filter is_DrawString (race_lines ti ly races) = race_lines ti ly races.
Proof.
  revert ly. induction races as [|[d n] races IH]; intros ly; cbn.
  - reflexivity.
  - rewrite IH. reflexivity.
Qed.

(** Apart from the flag images, the loop over the races draws one text
    line per race, whatever the state and the flag codes. *)
Lemma draw_race_list_blind (p : op -> bool) (Hp : image_blind p)
    (gl ti ly : float) (races : list (Z * string)) (st : State) :
  List.filter p (fst (draw_race_list codes gl ti ly races st))
  = List.filter p (race_lines ti ly races).
Proof.
  revert ly st. induction races as [|[d n] races IH]; intros ly st.
  - reflexivity.
  - cbn [draw_race_list race_lines].
    set (flag := match codes !! n with
                 | Some cc => _
                 | None => _
                 end).
    assert (Hflag : List.filter p (fst flag) = []).
    { subst flag. destruct (codes !! n) as [cc|]; [|reflexivity].
      destruct (py.truthy cc); [|reflexivity].
      destruct (get_flag_image cc st) as [[h|] st1]; [|reflexivity].
      cbn. rewrite Hp. reflexivity. }
    destruct flag as [fl st1].
    specialize (IH (PrimFloat.sub ly (Zf 10)) st1).
    destruct (draw_race_list codes gl ti (PrimFloat.sub ly (Zf 10)) races st1)
      as [rest st2].
    cbn [fst] in *. rewrite List.filter_app, Hflag. cbn [app List.filter].
    rewrite IH. reflexivity.
Qed.

Lemma is_DrawString_blind : image_blind is_DrawString.
Proof. intros h x y w hh. reflexivity. Qed.

Lemma draw_race_list_strings (gl ti ly : float)
    (races : list (Z * string)) (st : State) :
  List.filter is_DrawString (fst (draw_race_list codes gl ti ly races st))
  = race_lines ti ly races.
Proof.
  rewrite (draw_race_list_blind _ is_DrawString_blind).
  apply filter_race_lines.
Qed.

End RaceList.

Lemma race_sundays_keys_unique : List.NoDup (map fst race_sundays).
Proof.
  apply NoDup_ListNoDup.
  apply (bool_decide_unpack _). vm_compute. exact I.
Qed.

(** C6: for every month the rendered race list is the month's entries of
    the table sorted by strictly ascending day: no two entries share a
    [(month, day)] key, so no two lines of a month share a day.  Days
    8, 29, 15 come out as 8, 15, 29. *)
Theorem race_list_sorted_by_day (month : Z) :
  List.NoDup (map fst race_sundays) /\
  (exists races,
     month_races race_sundays month = Ok races /\
     Permutation races (events_of race_sundays month) /\
     StronglySorted (lt_key fst) races /\
     forall (P : Platform) codes gl ti ly st,
       List.filter is_DrawString
         (fst (draw_race_list codes gl ti ly races st))
       = race_lines ti ly races) /\
  map fst (py.sort_by fst [(8, "A"); (29, "B"); (15, "C")]) = [8; 15; 29].
Proof.
  split; [exact race_sundays_keys_unique|]. split; [|reflexivity].
  destruct (month_races_spec race_sundays race_sundays_keys_unique month)
    as (races & Hraces & Hperm & Hsorted).
  exists races. repeat split; try assumption.
  intros. apply draw_race_list_strings.
Qed.

(** ** The text lines of a block *)

Section EventLines.
Context {P : Platform}.
Variable tbl : race_table.
Variable codes : gmap string string.

Lemma race_lines_in (ti ly : float) (races : list (Z * string))
    (d : Z) (name : string) :
  In (d, name) races ->
  exists yy, In (DrawString ti yy (race_line d name)) (race_lines ti ly races).
Proof.
  revert ly. induction races as [|[d' n'] races IH]; intros ly Hin.
  - destruct Hin.
  - destruct Hin as [Heq|Hin].
    + inversion Heq; subst. exists ly. left. reflexivity.
    + destruct (IH (PrimFloat.sub ly (Zf 10)) Hin) as [yy Hyy].
      exists yy. right. exact Hyy.
Qed.

Lemma race_lines_x (ti ly : float) (races : list (Z * string)) :
  Forall (fun o => op_x o = Some ti) (race_lines ti ly races).
Proof.
  revert ly. induction races as [|[d n] races IH]; intros ly; cbn.
  - constructor.
  - constructor; [reflexivity|apply IH].
Qed.

(** What the loop over the races of [draw_month] starts with. *)
Lemma month_block_inv (x y w h : float) (month : Z) (th : Theme)
    (pre : list op) (gl ti ly : float) (races : list (Z * string)) :
  month_block tbl x y w h month th = Ok (pre, gl, ti, ly, races) ->
  gl = PrimFloat.add x (PrimFloat.mul 0.12 inch) /\
  ti = PrimFloat.add (PrimFloat.add gl (Zf 14)) (Zf 4) /\
  month_races tbl month = Ok races.
Proof.
  unfold month_block.
  destruct (py.index calendar.month_name month) as [name|]; [|discriminate].
  cbn [mbind result_bind]. lazy zeta.
  destruct (month_weeks month) as [weeks|]; [|discriminate].
  cbn [mbind result_bind].
  destruct (underline_days tbl month) as [ul|]; [|discriminate].
  cbn [mbind result_bind].
  match goal with
  | |- context [day_cells ?t ?g ?m ?ws ?u] =>
      destruct (day_cells t g m ws u) as [cells|]; [|discriminate]
  end.
  cbn [mbind result_bind].
  destruct (month_races tbl month) as [rs|]; [|discriminate].
  cbn [mbind result_bind].
  intros Heq. inversion Heq; subst. repeat split.
Qed.

Lemma draw_month_inv (x y w h : float) (month : Z) (th : Theme)
    (st st' : State) (ops : list op) :
  draw_month tbl codes x y w h month th st = Ok (ops, st') ->
  exists pre gl ti ly races,
    month_block tbl x y w h month th = Ok (pre, gl, ti, ly, races) /\
    ops = pre ++ fst (draw_race_list codes gl ti ly races st) /\
    st' = snd (draw_race_list codes gl ti ly races st).
Proof.
  unfold draw_month.
  destruct (month_block tbl x y w h month th)
    as [[[[[pre gl] ti] ly] races]|]; [|discriminate].
  cbn [mbind result_bind].
  destruct (draw_race_list codes gl ti ly races st) as [list_ops st1] eqn:E.
  intros Heq. inversion Heq; subst.
  exists pre, gl, ti, ly, races. rewrite E. repeat split.
Qed.

End EventLines.

Lemma app_mid {A} (a b c d e f : list A) :
  a ++ b ++ c ++ (d ++ e) ++ f = (a ++ b ++ c ++ d) ++ e ++ f.
Proof. rewrite <- !app_assoc. reflexivity. Qed.

(** The day cells are drawn by [month_block] as they are observed. *)
Lemma month_block_cells {P : Platform} (tbl : race_table)
    (x y w h : float) (month : Z) (th : Theme)
    (pre : list op) (gl ti ly : float) (races : list (Z * string)) :
  month_block tbl x y w h month th = Ok (pre, gl, ti, ly, races) ->
  exists g weeks underline cells before after,
    day_matrix month = Ok weeks /\
    underline_days tbl month = Ok underline /\
    day_cells th g month weeks underline = Ok cells /\
    rendered_underlines tbl th g month
    = Ok (map (fun c => (month, fst c))
              (List.filter (fun c => existsb is_Line (snd c)) cells)) /\
    pre = before ++ concat (map snd cells) ++ after.
Proof.
  unfold month_block, rendered_underlines, day_matrix.
  destruct (py.index calendar.month_name month) as [name|]; [|discriminate].
  cbn [mbind result_bind]. lazy zeta.
  destruct (month_weeks month) as [weeks|]; [|discriminate].
  cbn [mbind result_bind].
  destruct (underline_days tbl month) as [ul|]; [|discriminate].
  cbn [mbind result_bind].
  match goal with
  | |- context [day_cells ?t ?g ?m ?ws ?u] =>
      destruct (day_cells t g m ws u) as [cells|] eqn:Hcells;
        [|discriminate];
      cbn [mbind result_bind];
      destruct (month_races tbl month) as [rs|]; [|discriminate];
      cbn [mbind result_bind];
      intros Heq; exists g, ws, u, cells
  end.
  apply Ok_inj in Heq.
  apply (f_equal (fun t => fst (fst (fst (fst t))))) in Heq.
  cbn [fst] in Heq. subst pre.
  eexists. eexists.
  split; [reflexivity|]. split; [reflexivity|]. split; [exact Hcells|].
  rewrite Hcells. cbn [mbind result_bind]. split; [reflexivity|].
  apply app_mid.
Qed.

(** C9: in a block that is drawn, every race of the month has its text
    line, whether or not its name has a flag code and whether or not a
    flag image is drawn for it, and every such line starts at grid-left
    (the block's [x] plus the padding) plus the flag width 14 plus the
    gap 4. *)
Theorem event_lines_indent {P : Platform} (tbl : race_table)
    (codes : gmap string string) (x y w h : float) (month : Z) (th : Theme)
    (st st' : State) (ops : list op) :
  draw_month tbl codes x y w h month th st = Ok (ops, st') ->
  let grid_left := PrimFloat.add x (PrimFloat.mul 0.12 inch) in
  let text_indent := PrimFloat.add (PrimFloat.add grid_left (Zf 14)) (Zf 4) in
  exists pre list_ops races list_y_top,
    month_races tbl month = Ok races /\
    ops = pre ++ list_ops /\
    List.filter is_DrawString list_ops
    = race_lines text_indent list_y_top races /\
    Forall (fun o => op_x o = Some text_indent)
           (List.filter is_DrawString list_ops) /\
    forall d name,
      In (d, name) races ->
      exists yy, In (DrawString text_indent yy (race_line d name)) ops.
Proof.
  intros Hdraw grid_left text_indent.
  apply draw_month_inv in Hdraw
    as (pre & gl & ti & ly & races & Hblock & Hops & _).
  apply month_block_inv in Hblock as (Hgl & Hti & Hraces).
  assert (Hti' : ti = text_indent) by (subst; reflexivity).
  exists pre, (fst (draw_race_list codes gl ti ly races st)), races, ly.
  rewrite draw_race_list_strings, Hti'.
  repeat split; try assumption.
  - rewrite <- Hti'. exact Hops.
  - apply race_lines_x.
  - intros d name Hin.
    destruct (race_lines_in text_indent ly races d name Hin) as [yy Hyy].
    exists yy. rewrite Hops. apply in_or_app. right.
    rewrite <- Hti', <- (draw_race_list_strings codes gl ti ly races st) in Hyy.
    apply filter_In in Hyy as [Hyy _]. rewrite <- Hti'. exact Hyy.
Qed.

Lemma event_lines_indent_witness :
  COUNTRY_FLAG_CODES !! "ATLANTIS" = None /\
  let grid_left := PrimFloat.add 0%float (PrimFloat.mul 0.12 inch) in
  let text_indent := PrimFloat.add (PrimFloat.add grid_left (Zf 14)) (Zf 4) in
  exists pre list_ops races list_y_top,
    month_races atlantis 3 = Ok races /\
    atlantis_ops = pre ++ list_ops /\
    List.filter is_DrawString list_ops
    = race_lines text_indent list_y_top races /\
    Forall (fun o => op_x o = Some text_indent)
           (List.filter is_DrawString list_ops) /\
    forall d name,
      In (d, name) races ->
      exists yy, In (DrawString text_indent yy (race_line d name)) atlantis_ops.
Proof.
  split; [vm_compute; reflexivity|].
  apply (event_lines_indent (P := offline) atlantis COUNTRY_FLAG_CODES
           0%float 0%float 400%float 400%float 3 theme
           offline_start offline_start atlantis_ops).
  vm_compute. reflexivity.
Defined.

(** ** The flag cache *)

Section FlagCache.
Context {P : Platform}.

Lemma get_flag_image_cached (cc : string) (v : option handle) (st : State) :
  _flag_cache st !! cc = Some v -> get_flag_image cc st = (v, st).
Proof. intros H. unfold get_flag_image. rewrite H. reflexivity. Qed.

(** The network stage stores what it returns under [cc] and forgets
    nothing. *)
Lemma fetch_flag_cache (cc : string) (st : State) :
  _flag_cache (snd (fetch_flag cc st))
  = <[cc := fst (fetch_flag cc st)]> (_flag_cache st).
Proof.
  unfold fetch_flag, fetch_failed.
  destruct (urlopen_read (world st) (url_of cc)) as [w1 [data|]];
    [|reflexivity].
  cbn [world set_world log].
  destruct (mkdir w1 flags_dir) as [w2 [|]]; [|reflexivity].
  destruct (write_bytes w2 (local_path_of cc) data) as [w3 [|]];
    [|reflexivity].
  destruct (open_image_bytes data); reflexivity.
Qed.

Lemma fetch_flag_fails_iff (cc : string) (st : State) :
  fst (fetch_flag cc st) = None <-> fetch_fails (world st) cc = true.
Proof.
  unfold fetch_flag, fetch_failed, fetch_fails.
  destruct (urlopen_read (world st) (url_of cc)) as [w1 [data|]];
    [|cbn; tauto].
  cbn [world set_world log].
  destruct (mkdir w1 flags_dir) as [w2 [|]]; [|cbn; tauto].
  destruct (write_bytes w2 (local_path_of cc) data) as [w3 [|]];
    [|cbn; tauto].
  destruct (open_image_bytes data); cbn; split; intros H;
    try discriminate; reflexivity.
Qed.

(** A first resolution stores what it returns under [cc] and forgets
    nothing. *)
Lemma get_flag_image_cache (cc : string) (st : State) :
  _flag_cache st !! cc = None ->
  _flag_cache (snd (get_flag_image cc st))
  = <[cc := fst (get_flag_image cc st)]> (_flag_cache st).
Proof.
  intros Hnone. unfold get_flag_image. rewrite Hnone.
  cbn [world log].
  destruct (path_exists (world st) (local_path_of cc)).
  - destruct (open_image_file (world st) (local_path_of cc)).
    + reflexivity.
    + rewrite fetch_flag_cache. reflexivity.
  - rewrite fetch_flag_cache. reflexivity.
Qed.

(** After a call, the cache holds its answer. *)
Lemma get_flag_image_stored (cc : string) (st : State) :
  _flag_cache (snd (get_flag_image cc st)) !! cc
  = Some (fst (get_flag_image cc st)).
Proof.
  destruct (_flag_cache st !! cc) as [v|] eqn:E.
  - rewrite (get_flag_image_cached cc v st E). exact E.
  - rewrite get_flag_image_cache by exact E. apply lookup_insert_eq.
Qed.

(** A call never changes the entry of a code already in the cache. *)
Lemma get_flag_image_keeps (cc cc' : string) (v : option handle)
    (st : State) :
  _flag_cache st !! cc = Some v ->
  _flag_cache (snd (get_flag_image cc' st)) !! cc = Some v.
Proof.
  intros Hcc.
  destruct (_flag_cache st !! cc') as [v'|] eqn:E.
  - rewrite (get_flag_image_cached cc' v' st E). exact Hcc.
  - rewrite get_flag_image_cache by exact E.
    rewrite lookup_insert_ne; [exact Hcc|]. congruence.
Qed.

Lemma get_flag_images_keep (ccs : list string) (cc : string)
    (v : option handle) (st : State) :
  _flag_cache st !! cc = Some v ->
  _flag_cache (get_flag_images ccs st) !! cc = Some v.
Proof.
  revert st. induction ccs as [|cc' ccs IH]; intros st Hcc.
  - exact Hcc.
  - cbn. apply IH. apply get_flag_image_keeps. exact Hcc.
Qed.

(** Once a call has answered, every later call in the run answers the
    same from the cache and changes nothing. *)
Lemma get_flag_image_again (cc : string) (others : list string)
    (st : State) :
  let st2 := get_flag_images others (snd (get_flag_image cc st)) in
  get_flag_image cc st2 = (fst (get_flag_image cc st), st2).
Proof.
  cbv zeta. apply get_flag_image_cached.
  apply get_flag_images_keep. apply get_flag_image_stored.
Qed.

(** A first resolution answers "no image" when both stages fail, in
    which case the network has been tried once. *)
Lemma get_flag_image_none_iff (cc : string) (st : State) :
  _flag_cache st !! cc = None ->
  fst (get_flag_image cc st) = None
  <-> local_stage_fails (world st) cc = true
      /\ fetch_fails (world st) cc = true.
Proof.
  intros Hnone. unfold get_flag_image, local_stage_fails. rewrite Hnone.
  cbn [world log].
  destruct (path_exists (world st) (local_path_of cc)).
  - destruct (open_image_file (world st) (local_path_of cc)).
    + cbn. split; [discriminate|]. intros [H _]. discriminate.
    + rewrite fetch_flag_fails_iff. cbn. tauto.
  - rewrite fetch_flag_fails_iff. cbn. tauto.
Qed.

End FlagCache.

(** C5: a second call of [get_flag_image] with the same code in a run,
    directly or after calls for any codes, returns what the first call
    returned (the same handle, or "no image" after a failure) and leaves
    the state as it is: the cache is the only thing read, and no
    network request is added. *)
Theorem flag_resolution_is_cached {P : Platform} (cc : string)
    (others : list string) (st : State) :
  let first := get_flag_image cc st in
  let st2 := get_flag_images others (snd first) in
  get_flag_image cc (snd first) = (fst first, snd first) /\
  get_flag_image cc st2 = (fst first, st2) /\
  net_attempts (snd (get_flag_image cc st2)) = net_attempts st2.
Proof.
  cbv zeta. split; [|split].
  - apply (get_flag_image_again cc [] st).
  - apply (get_flag_image_again cc others st).
  - pose proof (get_flag_image_again cc others st) as H. cbv zeta in H.
    rewrite H. reflexivity.
Qed.

(** C4, as stated, fails: with no local file ("missing local file") and a
    network that answers, the call returns an image and caches it, not
    the sentinel. *)
Lemma missing_local_file_then_fetched :
  _flag_cache online_start !! "au" = None /\
  path_exists (world online_start) (local_path_of "au") = false /\
  local_stage_fails (world online_start) "au" = true /\
  fst (get_flag_image "au" online_start)
  = Some (mkhandle 0 (FromBytes [Byte.x89; Byte.x50])) /\
  fst (get_flag_image "au" online_start) <> None /\
  _flag_cache (snd (get_flag_image "au" online_start)) !! "au" <> Some None.
Proof.
  repeat split; try (vm_compute; reflexivity).
  - vm_compute. discriminate.
  - rewrite get_flag_image_stored. vm_compute. discriminate.
Qed.

(** C4, amended: a first resolution returns "no image" exactly when the
    local stage yields no image (file missing or not decodable) and the
    network stage fails as well (request, directory, write or decode);
    the sentinel is then recorded for the code, and every later call in
    the run returns "no image" from the cache, with no further attempt. *)
Theorem failed_resolution_is_recorded {P : Platform} (cc : string)
    (st : State) :
  _flag_cache st !! cc = None ->
  let first := get_flag_image cc st in
  (fst first = None
   <-> local_stage_fails (world st) cc = true
       /\ fetch_fails (world st) cc = true) /\
  (fst first = None ->
   _flag_cache (snd first) !! cc = Some None /\
   forall others,
     let st2 := get_flag_images others (snd first) in
     get_flag_image cc st2 = (None, st2)).
Proof.
  intros Hnone. cbv zeta. split.
  - apply get_flag_image_none_iff, Hnone.
  - intros Hfail. split.
    + rewrite get_flag_image_stored, Hfail. reflexivity.
    + intros others. cbv zeta. rewrite <- Hfail.
      apply (get_flag_image_again cc others st).
Qed.

Lemma failed_resolution_is_recorded_witness :
  let first := get_flag_image "au" offline_start in
  (fst first = None
   <-> local_stage_fails (world offline_start) "au" = true
       /\ fetch_fails (world offline_start) "au" = true) /\
  (fst first = None ->
   _flag_cache (snd first) !! "au" = Some None /\
   forall others,
     let st2 := get_flag_images others (snd first) in
     get_flag_image "au" st2 = (None, st2)).
Proof.
  apply (failed_resolution_is_recorded (P := offline) "au" offline_start).
  vm_compute. reflexivity.
Defined.

(** ** Underlined days *)

Ltac in_list :=
  cbn; repeat (first [left; reflexivity | right]); fail.

Ltac not_in_list :=
  let H := fresh "H" in
  cbn; intros H;
  repeat (destruct H as [H|H]; [discriminate H|]);
  exact H.

Ltac both_or_neither :=
  let H := fresh "H" in
  split; intros H;
  first [ reflexivity
        | solve [in_list]
        | exfalso; first [ discriminate H | revert H; not_in_list ] ].

(** C2: for every entry [(M, D)] of the race table, day [D] is
    underlined in the block of month [M]; [D-1] and [D-2] are underlined
    there exactly when the day before and the second day before the
    date fall in month [M]; and a day of the weekend that falls in the
    month before is underlined neither in the block of [M] nor in the
    block of that month. *)
Theorem race_weekend_underlined {P : Platform} (th : Theme) (g : Grid)
    (M D : Z) (name : string) :
  In ((M, D), name) race_sundays ->
  exists ul sun fri sat,
    rendered_underlines race_sundays th g M = Ok ul /\
    datetime.new 2026 M D = Ok sun /\
    datetime.sub_days sun 2 = Ok fri /\
    datetime.sub_days sun 1 = Ok sat /\
    In (M, D) ul /\
    (In (M, D - 1) ul <-> datetime.month sat = M) /\
    (In (M, D - 2) ul <-> datetime.month fri = M) /\
    forall p,
      p = fri \/ p = sat ->
      datetime.month p <> M ->
      ~ In (datetime.month p, datetime.day p) ul /\
      exists ul',
        rendered_underlines race_sundays th g (datetime.month p) = Ok ul' /\
        ~ In (datetime.month p, datetime.day p) ul'.
Proof.
  intros Hin. unfold race_sundays in Hin. cbn [In] in Hin.
  repeat (destruct Hin as [Heq|Hin];
          [ injection Heq as <- <- <-;
            eexists; eexists; eexists; eexists;
            split; [vm_compute; reflexivity|];
            split; [vm_compute; reflexivity|];
            split; [vm_compute; reflexivity|];
            split; [vm_compute; reflexivity|];
            split; [in_list|];
            split; [both_or_neither|];
            split; [both_or_neither|];
            intros p [-> | ->] Hne; cbn in Hne;
            try (exfalso; apply Hne; reflexivity);
            (split; [not_in_list|];
             eexists; split; [vm_compute; reflexivity|not_in_list])
          | ]).
  destruct Hin.
Qed.

Lemma race_weekend_underlined_witness :
  exists ul sun fri sat,
    rendered_underlines (P := offline) race_sundays theme
      (mkGrid 0%float 0%float 0%float 0%float 0%float) 11 = Ok ul /\
    datetime.new 2026 11 1 = Ok sun /\
    datetime.sub_days sun 2 = Ok fri /\
    datetime.sub_days sun 1 = Ok sat /\
    In (11, 1) ul /\
    (In (11, 1 - 1) ul <-> datetime.month sat = 11) /\
    (In (11, 1 - 2) ul <-> datetime.month fri = 11) /\
    forall p,
      p = fri \/ p = sat ->
      datetime.month p <> 11 ->
      ~ In (datetime.month p, datetime.day p) ul /\
      exists ul',
        rendered_underlines (P := offline) race_sundays theme
          (mkGrid 0%float 0%float 0%float 0%float 0%float)
          (datetime.month p) = Ok ul' /\
        ~ In (datetime.month p, datetime.day p) ul'.
Proof.
  apply (race_weekend_underlined (P := offline) theme
           (mkGrid 0%float 0%float 0%float 0%float 0%float) 11 1 "MEXICO").
  vm_compute. tauto.
Defined.

(** ** The page grid *)

Section PageGrid.
Context {P : Platform}.
Variable body : Z -> Z -> Z -> State -> result (list op * State).

Lemma run_blocks_app (l1 l2 : list (Z * Z * Z)) (ops : list op)
    (st : State) :
  run_blocks body (l1 ++ l2) ops st
  = '(ops1, st1) ← run_blocks body l1 ops st; run_blocks body l2 ops1 st1.
Proof.
  revert ops st. induction l1 as [|[[r c] m] l1 IH]; intros ops st.
  - reflexivity.
  - cbn [app run_blocks]. destruct (body r c m st) as [[ops' st']|e].
    + cbn [mbind result_bind]. apply IH.
    + reflexivity.
Qed.

Lemma inner_loop_blocks (r m : Z) (cs : list Z) (ops : list op)
    (st : State) :
  for_each (inner_loop body r) (m, ops, st) cs
  = with_month (P := P) (m + Z.of_nat (length cs))
               (run_blocks body (row_from r m cs) ops st).
Proof.
  revert m ops st. induction cs as [|c cs IH]; intros m ops st.
  - cbn. rewrite Z.add_0_r. reflexivity.
  - cbn [for_each row_from run_blocks inner_loop].
    destruct (body r c m st) as [[ops' st']|e]; [|reflexivity].
    cbn [mbind result_bind]. rewrite IH. f_equal. cbn [length]. lia.
Qed.

Lemma outer_loop_blocks (m : Z) (rs cs : list Z) (ops : list op)
    (st : State) :
  for_each (fun acc r => for_each (inner_loop body r) acc cs) (m, ops, st) rs
  = with_month (P := P) (m + Z.of_nat (length rs * length cs))
               (run_blocks body (grid_from m rs cs) ops st).
Proof.
  revert m ops st. induction rs as [|r rs IH]; intros m ops st.
  - cbn. rewrite Z.add_0_r. reflexivity.
  - cbn [for_each grid_from]. rewrite inner_loop_blocks, run_blocks_app.
    destruct (run_blocks body (row_from r m cs) ops st) as [[ops1 st1]|e];
      [|reflexivity].
    unfold with_month at 1. cbn [mbind result_bind]. rewrite IH.
    f_equal. cbn [length]. rewrite Nat.mul_succ_l. lia.
Qed.

End PageGrid.

Lemma row_from_seq (cols r m : Z) (k n : nat) :
  m = cols * r + Z.of_nat k + 1 ->
  row_from r m (map Z.of_nat (seq k n))
  = map (fun c => (r, c, cols * r + c + 1)) (map Z.of_nat (seq k n)).
Proof.
  revert k m. induction n as [|n IH]; intros k m Hm; [reflexivity|].
  cbn [seq map row_from]. subst m. f_equal. apply IH. lia.
Qed.

Lemma grid_from_seq (cols m : Z) (k n : nat) :
  0 <= cols ->
  m = cols * Z.of_nat k + 1 ->
  grid_from m (map Z.of_nat (seq k n)) (py.range cols)
  = flat_map
      (fun r => map (fun c => (r, c, cols * r + c + 1)) (py.range cols))
      (map Z.of_nat (seq k n)).
Proof.
  intros Hcols. revert k m. induction n as [|n IH]; intros k m Hm;
    [reflexivity|].
  cbn [seq map grid_from flat_map]. f_equal.
  - unfold py.range. apply row_from_seq. lia.
  - apply IH. unfold py.range. rewrite length_map, length_seq. lia.
Qed.

(** The loops of [make_poster] visit the blocks in row-major order and
    give the block at row [r], column [c] the month [cols * r + c + 1]. *)
Lemma poster_loop_row_major {P : Platform} (rows cols : Z)
    (body : Z -> Z -> Z -> State -> result (list op * State)) (st : State) :
  0 <= cols ->
  poster_loop rows cols body st
  = with_month (1 + Z.of_nat (length (py.range rows) * length (py.range cols)))
               (run_blocks body (row_major rows cols) [] st).
Proof.
  intros Hcols. unfold poster_loop, row_major.
  change (py.range rows) with (map Z.of_nat (seq 0 (Z.to_nat rows))).
  rewrite <- (grid_from_seq cols 1 0) by lia.
  exact (outer_loop_blocks body 1 (map Z.of_nat (seq 0 (Z.to_nat rows)))
           (py.range cols) [] st).
Qed.

(** ** The poster without its flag images *)

Section Static.
Context {P : Platform}.
Variable tbl : race_table.
Variable codes : gmap string string.
Variable th : Theme.

Lemma draw_block_static (r c m : Z) (s : list op) (st : State) :
  block_static tbl th (r, c, m) = Ok s ->
  exists ops st',
    draw_block tbl codes th r c m st = Ok (ops, st') /\
    forall p, image_blind p -> List.filter p ops = List.filter p s.
Proof.
  unfold block_static, draw_block, draw_month.
  destruct (month_block tbl (block_x c) (block_y r) cell_w cell_h m th)
    as [[[[[pre gl] ti] ly] races]|]; [|discriminate].
  cbn [mbind result_bind]. intros Heq. apply Ok_inj in Heq. subst s.
  pose proof (draw_race_list_blind codes) as Hblind.
  specialize (fun p Hp => Hblind p Hp gl ti ly races st).
  destruct (draw_race_list codes gl ti ly races st) as [list_ops st1].
  cbn [mbind result_bind fst] in *. eexists. eexists.
  split; [reflexivity|].
  intros p Hp. rewrite !List.filter_app, (Hblind p Hp). reflexivity.
Qed.

Lemma run_blocks_static (blocks : list (Z * Z * Z))
    (statics : list (list op)) :
  py.list_comp (fun b => ops ← block_static tbl th b; Ok (Some ops)) blocks
  = Ok statics ->
  forall ops0 st,
  exists ops st',
    run_blocks (draw_block tbl codes th) blocks ops0 st
    = Ok (ops0 ++ ops, st') /\
    forall p, image_blind p ->
      List.filter p ops = List.filter p (concat statics).
Proof.
  revert statics. induction blocks as [|[[r c] m] blocks IH];
    intros statics Hcomp ops0 st.
  - inversion Hcomp; subst. exists [], st. rewrite app_nil_r.
    split; reflexivity.
  - cbn [py.list_comp] in Hcomp.
    destruct (block_static tbl th (r, c, m)) as [s|] eqn:Hs; [|discriminate].
    cbn [mbind result_bind] in Hcomp.
    destruct (py.list_comp _ blocks) as [rest|]; [|discriminate].
    cbn [mbind result_bind] in Hcomp. inversion Hcomp; subst statics.
    destruct (draw_block_static r c m s st Hs) as (ops1 & st1 & Hrun & Hf1).
    destruct (IH rest eq_refl (ops0 ++ ops1) st1)
      as (ops2 & st2 & Hrest & Hf2).
    exists (ops1 ++ ops2), st2. split.
    + cbn [run_blocks]. rewrite Hrun. cbn [mbind result_bind].
      rewrite Hrest, app_assoc. reflexivity.
    + intros p Hp. cbn [concat]. rewrite !List.filter_app.
      rewrite (Hf1 p Hp), (Hf2 p Hp). reflexivity.
Qed.

(** [make_poster] returns when every block can be laid out, and what it
    draws is then, flag images apart, the same in every state. *)
Lemma make_poster_static (static : list op) :
  poster_static tbl th = Ok static ->
  forall st,
  exists ops st',
    make_poster tbl codes th st = Ok (ops, st') /\
    forall p, image_blind p -> List.filter p ops = List.filter p static.
Proof.
  unfold poster_static, make_poster. intros Hstatic st.
  destruct (py.list_comp _ (row_major rows cols)) as [statics|] eqn:Hcomp;
    [|discriminate].
  cbn [mbind result_bind] in Hstatic. apply Ok_inj in Hstatic. subst static.
  rewrite poster_loop_row_major by (unfold cols; lia).
  destruct (run_blocks_static _ _ Hcomp [] st) as (ops & st' & Hrun & Hf).
  rewrite Hrun. cbn [with_month mbind result_bind app].
  eexists. eexists. split; [reflexivity|].
  intros p Hp. rewrite !List.filter_app, (Hf p Hp). reflexivity.
Qed.

End Static.

Lemma is_RoundRect_blind : image_blind is_RoundRect.
Proof. intros h x y w hh. reflexivity. Qed.

Lemma is_ShowPage_blind : image_blind is_ShowPage.
Proof. intros h x y w hh. reflexivity. Qed.

Lemma is_event_line_blind (tbl : race_table) :
  image_blind (is_event_line tbl).
Proof. intros h x y w hh. reflexivity. Qed.

Lemma static_counts_eq {P : Platform} : static_counts = Ok (12, 1, 24)%nat.
Proof. vm_compute. reflexivity. Qed.

(** C7: rendering the table of the script returns, in every state and on
    every platform, with 12 month blocks outlined, one page shown, and
    as many race lines drawn as the table has entries, 24. *)
Theorem poster_has_12_blocks_24_lines {P : Platform} (st : State) :
  exists ops st',
    make_poster race_sundays COUNTRY_FLAG_CODES theme st = Ok (ops, st') /\
    count is_RoundRect ops = 12%nat /\
    count is_ShowPage ops = 1%nat /\
    count (is_event_line race_sundays) ops = length race_sundays /\
    length race_sundays = 24%nat.
Proof.
  pose proof static_counts_eq as Hcounts. unfold static_counts in Hcounts.
  destruct (poster_static race_sundays theme) as [static|] eqn:Hstatic;
    [|discriminate].
  cbn [mbind result_bind] in Hcounts.
  injection Hcounts as Hblocks Hpages Hlines.
  destruct (make_poster_static race_sundays COUNTRY_FLAG_CODES theme static
              Hstatic st) as (ops & st' & Hrun & Hf).
  exists ops, st'. unfold count in *.
  rewrite (Hf _ is_RoundRect_blind), (Hf _ is_ShowPage_blind),
    (Hf _ (is_event_line_blind race_sundays)).
  repeat split; assumption || reflexivity.
Qed.

(** ** Which month a block shows *)

(** A block starts with the month's name at its top-left corner. *)
Lemma month_block_title {P : Platform} (tbl : race_table)
    (x y w h : float) (month : Z) (th : Theme)
    (pre : list op) (gl ti ly : float) (races : list (Z * string)) :
  month_block tbl x y w h month th = Ok (pre, gl, ti, ly, races) ->
  exists name rest,
    py.index calendar.month_name month = Ok name /\
    pre = [ SetFillColor (ink th);
            SetFont (font th) 14;
            DrawString (PrimFloat.add x (PrimFloat.mul 0.12 inch))
                       (PrimFloat.sub
                          (PrimFloat.sub y (PrimFloat.mul 0.12 inch))
                          (Zf 10))
                       (py.upper name) ] ++ rest.
Proof.
  unfold month_block.
  destruct (py.index calendar.month_name month) as [name|]; [|discriminate].
  cbn [mbind result_bind]. lazy zeta.
  destruct (month_weeks month) as [weeks|]; [|discriminate].
  cbn [mbind result_bind].
  destruct (underline_days tbl month) as [ul|]; [|discriminate].
  cbn [mbind result_bind].
  match goal with
  | |- context [day_cells ?t ?g ?m ?ws ?u] =>
      destruct (day_cells t g m ws u) as [cells|]; [|discriminate]
  end.
  cbn [mbind result_bind].
  destruct (month_races tbl month) as [rs|]; [|discriminate].
  cbn [mbind result_bind].
  intros Heq. apply Ok_inj in Heq.
  exists name. eexists. split; [reflexivity|].
  injection Heq as <- _ _ _ _. reflexivity.
Qed.

Lemma draw_block_title {P : Platform} (tbl : race_table)
    (codes : gmap string string) (th : Theme) (r c m : Z)
    (st st' : State) (ops : list op) :
  draw_block tbl codes th r c m st = Ok (ops, st') ->
  exists name rest,
    py.index calendar.month_name m = Ok name /\
    ops = block_outline th r c
          ++ [ SetFillColor (ink th);
               SetFont (font th) 14;
               DrawString
                 (PrimFloat.add (block_x c) (PrimFloat.mul 0.12 inch))
                 (PrimFloat.sub
                    (PrimFloat.sub (block_y r) (PrimFloat.mul 0.12 inch))
                    (Zf 10))
                 (py.upper name) ] ++ rest.
Proof.
  unfold draw_block.
  destruct (draw_month tbl codes (block_x c) (block_y r) cell_w cell_h m th st)
    as [[mops st1]|] eqn:Hdraw; [|discriminate].
  cbn [mbind result_bind]. intros Heq. apply Ok_inj in Heq.
  injection Heq as <- <-.
  apply draw_month_inv in Hdraw
    as (pre & gl & ti & ly & races & Hblock & Hops & _).
  apply month_block_title in Hblock as (name & rest & Hname & Hpre).
  exists name, (rest ++ fst (draw_race_list codes gl ti ly races st)).
  split; [exact Hname|]. rewrite Hops, Hpre, <- !app_assoc. reflexivity.
Qed.

(** C8: [make_poster] draws its blocks in row-major order over the grid
    of 4 rows and 3 columns: the block at row [r] and column [c] is the
    one of month [3 * r + c + 1], drawn at the position of that row and
    column, for exactly 12 blocks and the months 1 to 12. *)
Theorem blocks_are_row_major {P : Platform} (tbl : race_table)
    (codes : gmap string string) (th : Theme) (st : State) :
  make_poster tbl codes th st
  = ('(blocks, st') ←
       run_blocks (draw_block tbl codes th) (row_major rows cols) [] st;
     Ok (background th ++ blocks ++ [ShowPage; Save], st')) /\
  row_major rows cols
  = [ (0, 0, 1); (0, 1, 2); (0, 2, 3);
      (1, 0, 4); (1, 1, 5); (1, 2, 6);
      (2, 0, 7); (2, 1, 8); (2, 2, 9);
      (3, 0, 10); (3, 1, 11); (3, 2, 12) ] /\
  (forall r c m,
     In (r, c, m) (row_major rows cols)
     <-> 0 <= r < 4 /\ 0 <= c < 3 /\ m = 3 * r + c + 1) /\
  map snd (row_major rows cols) = py.range2 1 13 /\
  (forall r c m st0 ops st1,
     draw_block tbl codes th r c m st0 = Ok (ops, st1) ->
     exists name rest,
       py.index calendar.month_name m = Ok name /\
       ops = block_outline th r c
             ++ [ SetFillColor (ink th);
                  SetFont (font th) 14;
                  DrawString
                    (PrimFloat.add (block_x c) (PrimFloat.mul 0.12 inch))
                    (PrimFloat.sub
                       (PrimFloat.sub (block_y r) (PrimFloat.mul 0.12 inch))
                       (Zf 10))
                    (py.upper name) ] ++ rest).
Proof.
  split; [|split; [reflexivity|split; [|split; [reflexivity|]]]].
  - unfold make_poster.
    rewrite poster_loop_row_major by (unfold cols; lia).
    destruct (run_blocks _ _ _ _) as [[ops st']|]; reflexivity.
  - intros r c m. split.
    + intros Hin. change (row_major rows cols) with
        [ (0, 0, 1); (0, 1, 2); (0, 2, 3);
          (1, 0, 4); (1, 1, 5); (1, 2, 6);
          (2, 0, 7); (2, 1, 8); (2, 2, 9);
          (3, 0, 10); (3, 1, 11); (3, 2, 12) ] in Hin.
      cbn [In] in Hin.
      repeat (destruct Hin as [[= <- <- <-]|Hin]; [lia|]). destruct Hin.
    + intros (Hr & Hc & ->).
      assert (Hrs : r = 0 \/ r = 1 \/ r = 2 \/ r = 3) by lia.
      assert (Hcs : c = 0 \/ c = 1 \/ c = 2) by lia.
      destruct Hrs as [->|[->|[->| ->]]]; destruct Hcs as [->|[->| ->]];
        vm_compute; tauto.
  - intros r c m st0 ops st1. apply draw_block_title.
Qed.


(** * Further properties *)

(** ** [draw_checkered] *)





(** ** Network requests of [get_flag_image] *)

Set Warnings "-clear-no-such-hyp".

Lemma append_length (s t : string) :
  String.length (String.append s t) = (String.length s + String.length t)%nat.
Proof.
  induction s as [|c s IH]; simpl; [reflexivity|]. rewrite IH. reflexivity.
Qed.

Lemma append_cancel_l (s a b : string) :
  String.append s a = String.append s b -> a = b.
Proof.
  induction s as [|c s IH]; cbn; intros H; [exact H|].
  injection H as H. apply IH, H.
Qed.

Lemma append_cancel_r (t a b : string) :
  String.append a t = String.append b t -> a = b.
Proof.
  revert b. induction a as [|c a IH]; intros b H.
  - destruct b as [|c' b]; [reflexivity|].
    apply (f_equal String.length) in H.
    rewrite !append_length in H. cbn in H. lia.
  - destruct b as [|c' b].
    + apply (f_equal String.length) in H.
      rewrite !append_length in H. cbn in H. lia.
    + cbn in H. injection H as Hc H. subst c'. f_equal. apply IH, H.
Qed.

(** Different codes have different URLs. *)
Lemma url_of_inj (cc cc' : string) : url_of cc = url_of cc' -> cc = cc'.
Proof.
  unfold url_of. intros H.
  apply append_cancel_l in H. apply append_cancel_r in H. exact H.
Qed.

Section FlagRuns.
Context {P : Platform}.

Lemma requests_for_log (cc : string) (e : io_event) (st : State) :
  requests_for cc (log e st)
  = (requests_for cc st + if is_request_for cc e then 1 else 0)%nat.
Proof.
  unfold requests_for, log. cbn [io_log].
  rewrite List.filter_app, length_app. cbn [List.filter].
  destruct (is_request_for cc e); reflexivity.
Qed.

Lemma net_attempts_log (e : io_event) (st : State) :
  net_attempts (log e st)
  = (net_attempts st + if is_EvUrlopen e then 1 else 0)%nat.
Proof.
  unfold net_attempts, log. cbn [io_log].
  rewrite List.filter_app, length_app. cbn [List.filter].
  destruct (is_EvUrlopen e); reflexivity.
Qed.

(** The network stage makes one request, for its own code. *)
Lemma fetch_flag_log (cc : string) (st : State) :
  exists tail,
    io_log (snd (fetch_flag cc st))
    = io_log st ++ EvUrlopen (url_of cc) :: tail /\
    List.filter is_EvUrlopen tail = [].
Proof.
  unfold fetch_flag, fetch_failed.
  destruct (urlopen_read (world st) (url_of cc)) as [w1 [data|]].
  - cbn [world set_world log io_log].
    destruct (mkdir w1 flags_dir) as [w2 [|]].
    + destruct (write_bytes w2 (local_path_of cc) data) as [w3 [|]].
      * exists [EvMkdir flags_dir; EvWrite (local_path_of cc)].
        split; [|reflexivity].
        destruct (open_image_bytes data); cbn; rewrite <- !app_assoc;
          reflexivity.
      * exists [EvMkdir flags_dir; EvWrite (local_path_of cc)].
        split; [|reflexivity]. cbn. rewrite <- !app_assoc. reflexivity.
    + exists [EvMkdir flags_dir]. split; [|reflexivity].
      cbn. rewrite <- !app_assoc. reflexivity.
  - exists []. split; reflexivity.
Qed.

(** What a call adds to the log: nothing on a cache hit, the probes of
    the local file otherwise, and then one request for the code if the
    local stage gave no image. *)
Lemma get_flag_image_log (cc : string) (st : State) :
  exists added,
    io_log (snd (get_flag_image cc st)) = io_log st ++ added /\
    List.filter is_EvUrlopen added
    = match _flag_cache st !! cc with
      | Some _ => []
      | None =>
          if local_stage_fails (world st) cc
          then [EvUrlopen (url_of cc)] else []
      end.
Proof.
  unfold get_flag_image, local_stage_fails.
  destruct (_flag_cache st !! cc) as [v|].
  - exists []. rewrite app_nil_r. split; reflexivity.
  - cbn [world log].
    destruct (path_exists (world st) (local_path_of cc)).
    + destruct (open_image_file (world st) (local_path_of cc)).
      * exists [EvExists (local_path_of cc); EvOpenFile (local_path_of cc)].
        cbn. rewrite <- !app_assoc. split; reflexivity.
      * destruct (fetch_flag_log cc
                    (log (EvOpenFile (local_path_of cc))
                       (log (EvExists (local_path_of cc)) st)))
          as (tail & Hlog & Htail).
        exists (EvExists (local_path_of cc) :: EvOpenFile (local_path_of cc)
                :: EvUrlopen (url_of cc) :: tail).
        rewrite Hlog. cbn. rewrite Htail, <- !app_assoc. split; reflexivity.
    + destruct (fetch_flag_log cc (log (EvExists (local_path_of cc)) st))
        as (tail & Hlog & Htail).
      exists (EvExists (local_path_of cc) :: EvUrlopen (url_of cc) :: tail).
      rewrite Hlog. cbn. rewrite Htail, <- !app_assoc. split; reflexivity.
Qed.

Lemma request_is_urlopen (cc : string) (e : io_event) :
  is_request_for cc e = true -> is_EvUrlopen e = true.
Proof. destruct e; cbn; intros H; congruence. Qed.

Lemma filter_requests (cc : string) (l : list io_event) :
  List.filter (is_request_for cc) l
  = List.filter (is_request_for cc) (List.filter is_EvUrlopen l).
Proof.
  induction l as [|e l IH]; [reflexivity|]. cbn [List.filter].
  destruct (is_request_for cc e) eqn:Hreq.
  - rewrite (request_is_urlopen cc e Hreq). cbn [List.filter].
    rewrite Hreq, IH. reflexivity.
  - destruct (is_EvUrlopen e); [cbn [List.filter]; rewrite Hreq|]; exact IH.
Qed.

Lemma is_request_for_url (cc cc' : string) :
  is_request_for cc (EvUrlopen (url_of cc')) = bool_decide (cc = cc').
Proof.
  cbn. destruct (String.eqb_spec (url_of cc') (url_of cc)) as [Heq|Hne].
  - apply url_of_inj in Heq. subst. rewrite bool_decide_eq_true_2; reflexivity.
  - rewrite bool_decide_eq_false_2; [reflexivity|]. intros ->. apply Hne.
    reflexivity.
Qed.

(** A call changes the number of requests for [cc] only when it is the
    first call for [cc] itself and the local stage gives no image. *)
Lemma requests_for_step (cc cc' : string) (st : State) :
  requests_for cc (snd (get_flag_image cc' st))
  = (requests_for cc st
     + match _flag_cache st !! cc' with
       | Some _ => 0
       | None =>
           if local_stage_fails (world st) cc' && bool_decide (cc = cc')
           then 1 else 0
       end)%nat.
Proof.
  destruct (get_flag_image_log cc' st) as (added & Hlog & Hadded).
  unfold requests_for. rewrite Hlog, List.filter_app, length_app.
  f_equal. rewrite filter_requests, Hadded.
  destruct (_flag_cache st !! cc'); [reflexivity|].
  destruct (local_stage_fails (world st) cc'); [|reflexivity].
  cbn [List.filter andb]. rewrite is_request_for_url.
  destruct (bool_decide (cc = cc')); reflexivity.
Qed.

Lemma net_attempts_step (cc : string) (st : State) :
  net_attempts (snd (get_flag_image cc st))
  = (net_attempts st
     + match _flag_cache st !! cc with
       | Some _ => 0
       | None => if local_stage_fails (world st) cc then 1 else 0
       end)%nat.
Proof.
  destruct (get_flag_image_log cc st) as (added & Hlog & Hadded).
  unfold net_attempts. rewrite Hlog, List.filter_app, length_app, Hadded.
  destruct (_flag_cache st !! cc); [reflexivity|].
  destruct (local_stage_fails (world st) cc); reflexivity.
Qed.

Lemma fetched_once_init (w : World) : fetched_once (init_state w).
Proof. intros cc. split; [cbn; lia|reflexivity]. Qed.

Lemma fetched_once_step (cc' : string) (st : State) :
  fetched_once st -> fetched_once (snd (get_flag_image cc' st)).
Proof.
  intros Hinv cc. destruct (Hinv cc) as [Hle Hnone].
  rewrite requests_for_step.
  destruct (_flag_cache st !! cc') as [v|] eqn:Hc'.
  - rewrite (get_flag_image_cached cc' v st Hc'). cbn [snd].
    rewrite Nat.add_0_r. split; assumption.
  - rewrite get_flag_image_cache by exact Hc'.
    destruct (decide (cc = cc')) as [->|Hne].
    + rewrite lookup_insert_eq. rewrite (Hnone Hc').
      split; [|discriminate].
      destruct (local_stage_fails (world st) cc' && bool_decide (cc' = cc'));
        lia.
    + rewrite lookup_insert_ne by congruence.
      rewrite bool_decide_eq_false_2 by exact Hne.
      rewrite andb_false_r, Nat.add_0_r. split; assumption.
Qed.

Lemma fetched_once_run (ccs : list string) (st : State) :
  fetched_once st -> fetched_once (get_flag_images ccs st).
Proof.
  revert st. induction ccs as [|cc ccs IH]; intros st Hinv; [exact Hinv|].
  cbn. apply IH, fetched_once_step, Hinv.
Qed.

(** The cache after a run holds the codes asked for, and there are at
    least as many of them as network requests. *)
Lemma get_flag_image_dom (cc : string) (st : State) :
  dom (_flag_cache (snd (get_flag_image cc st)))
  = {[cc]} ∪ dom (_flag_cache st).
Proof.
  destruct (_flag_cache st !! cc) as [v|] eqn:Hc.
  - rewrite (get_flag_image_cached cc v st Hc). cbn [snd].
    apply (elem_of_dom_2 (D := gset string)) in Hc. set_solver.
  - rewrite get_flag_image_cache by exact Hc. apply dom_insert_L.
Qed.

Lemma get_flag_images_dom (ccs : list string) (st : State) :
  dom (_flag_cache (get_flag_images ccs st))
  = list_to_set ccs ∪ dom (_flag_cache st).
Proof.
  revert st. induction ccs as [|cc ccs IH]; intros st.
  - cbn. set_solver.
  - change (get_flag_images (cc :: ccs) st)
      with (get_flag_images ccs (snd (get_flag_image cc st))).
    rewrite IH, get_flag_image_dom. cbn [list_to_set]. set_solver.
Qed.

Lemma attempts_le_cached_step (cc : string) (st : State) :
  (net_attempts st <= size (_flag_cache st))%nat ->
  (net_attempts (snd (get_flag_image cc st))
   <= size (_flag_cache (snd (get_flag_image cc st))))%nat.
Proof.
  intros Hle. rewrite net_attempts_step.
  destruct (_flag_cache st !! cc) as [v|] eqn:Hc.
  - rewrite (get_flag_image_cached cc v st Hc). cbn [snd]. lia.
  - rewrite get_flag_image_cache by exact Hc.
    rewrite map_size_insert_None by exact Hc.
    destruct (local_stage_fails (world st) cc); lia.
Qed.

Lemma attempts_le_cached_run (ccs : list string) (st : State) :
  (net_attempts st <= size (_flag_cache st))%nat ->
  (net_attempts (get_flag_images ccs st)
   <= size (_flag_cache (get_flag_images ccs st)))%nat.
Proof.
  revert st. induction ccs as [|cc ccs IH]; intros st Hle; [exact Hle|].
  cbn. apply IH, attempts_le_cached_step, Hle.
Qed.

End FlagRuns.

(** X2: in a run that starts with an empty cache, whatever codes are
    asked for and in whatever order, the flag of a code is requested
    from the network at most once, and the requests are at most as many
    as the distinct codes asked for, which are the codes the cache
    ends with. *)
Theorem flag_fetched_at_most_once {P : Platform} (w : World)
    (ccs : list string) (cc : string) :
  let st := get_flag_images ccs (init_state w) in
  (requests_for cc st <= 1)%nat /\
  (net_attempts st <= size (list_to_set ccs : gset string))%nat /\
  dom (_flag_cache st) = list_to_set ccs.
Proof.
  cbv zeta.
  assert (Hdom : dom (_flag_cache (get_flag_images ccs (init_state w)))
                 = list_to_set ccs).
  { rewrite get_flag_images_dom. cbn. set_solver. }
  split; [|split; [|exact Hdom]].
  - apply (fetched_once_run ccs (init_state w) (fetched_once_init w) cc).
  - rewrite <- Hdom, size_dom.
    apply attempts_le_cached_run. cbn. lia.
Qed.

(** X3: a call of [get_flag_image] uses the network exactly when the
    code is not in the cache and the local file is missing or does not
    decode, and then makes one request; a cached code or a decodable
    local file costs no request. *)
Theorem network_only_after_local_miss {P : Platform} (cc : string)
    (st : State) :
  net_attempts (snd (get_flag_image cc st))
  = (net_attempts st
     + match _flag_cache st !! cc with
       | Some _ => 0
       | None => if local_stage_fails (world st) cc then 1 else 0
       end)%nat /\
  requests_for cc (snd (get_flag_image cc st))
  = (requests_for cc st
     + match _flag_cache st !! cc with
       | Some _ => 0
       | None => if local_stage_fails (world st) cc then 1 else 0
       end)%nat.
Proof.
  split; [apply net_attempts_step|].
  rewrite requests_for_step.
  rewrite bool_decide_eq_true_2 by reflexivity. rewrite andb_true_r.
  reflexivity.
Qed.

(** ** What drawing does to the state *)

Section PosterState.
Context {P : Platform}.
Variable tbl : race_table.
Variable codes : gmap string string.

Lemma get_flag_images_app (a b : list string) (st : State) :
  get_flag_images (a ++ b) st = get_flag_images b (get_flag_images a st).
Proof. unfold get_flag_images. apply fold_left_app. Qed.

(** The loop over the races leaves the state the calls of
    [get_flag_image] on the codes it tries leave. *)
Lemma draw_race_list_state (gl ti ly : float) (races : list (Z * string))
    (st : State) :
  snd (draw_race_list codes gl ti ly races st)
  = get_flag_images (codes_tried codes races) st.
Proof.
  revert ly st. induction races as [|[d n] races IH]; intros ly st.
  - reflexivity.
  - cbn [draw_race_list codes_tried flat_map snd].
    rewrite get_flag_images_app.
    destruct (codes !! n) as [cc|]; [destruct (py.truthy cc)|].
    + destruct (get_flag_image cc st) as [[h|] st1] eqn:Hget.
      all: specialize (IH (PrimFloat.sub ly (Zf 10)) st1).
      all: destruct (draw_race_list codes gl ti _ races st1) as [rest st2].
      all: cbn [snd] in *; rewrite IH; cbn; rewrite Hget; reflexivity.
    + specialize (IH (PrimFloat.sub ly (Zf 10)) st).
      destruct (draw_race_list codes gl ti _ races st) as [rest st2].
      cbn [snd] in *. rewrite IH. reflexivity.
    + specialize (IH (PrimFloat.sub ly (Zf 10)) st).
      destruct (draw_race_list codes gl ti _ races st) as [rest st2].
      cbn [snd] in *. rewrite IH. reflexivity.
Qed.

Hypothesis keys_unique : List.NoDup (map fst tbl).

Lemma draw_month_state (x y w h : float) (month : Z) (th : Theme)
    (st st' : State) (ops : list op) :
  draw_month tbl codes x y w h month th st = Ok (ops, st') ->
  st' = get_flag_images
          (codes_tried codes (py.sort_by fst (events_of tbl month))) st.
Proof.
  intros Hdraw.
  apply draw_month_inv in Hdraw
    as (pre & gl & ti & ly & races & Hblock & _ & Hst).
  apply month_block_inv in Hblock as (_ & _ & Hraces).
  rewrite (month_races_eq tbl keys_unique) in Hraces.
  apply Ok_inj in Hraces. subst races.
  rewrite Hst. apply draw_race_list_state.
Qed.

Lemma draw_block_state (th : Theme) (r c m : Z) (st st' : State)
    (ops : list op) :
  draw_block tbl codes th r c m st = Ok (ops, st') ->
  st' = get_flag_images
          (codes_tried codes (py.sort_by fst (events_of tbl m))) st.
Proof.
  unfold draw_block.
  destruct (draw_month tbl codes (block_x c) (block_y r) cell_w cell_h m
              th st) as [[mops st1]|] eqn:Hdraw;
    cbn [mbind result_bind]; [|discriminate].
  intros Heq. apply Ok_inj in Heq. apply draw_month_state in Hdraw.
  congruence.
Qed.

Lemma run_blocks_state (th : Theme) (blocks : list (Z * Z * Z))
    (ops0 ops : list op) (st st' : State) :
  run_blocks (draw_block tbl codes th) blocks ops0 st = Ok (ops, st') ->
  st' = get_flag_images
          (flat_map
             (fun b => codes_tried codes
                         (py.sort_by fst (events_of tbl (snd b))))
             blocks)
          st.
Proof.
  revert ops0 st. induction blocks as [|[[r c] m] blocks IH];
    intros ops0 st Hrun.
  - apply Ok_inj in Hrun. change (st' = st). congruence.
  - cbn [run_blocks] in Hrun.
    destruct (draw_block tbl codes th r c m st) as [[bops st1]|] eqn:Hblock;
      cbn [mbind result_bind] in Hrun; [|discriminate].
    apply IH in Hrun. apply draw_block_state in Hblock.
    cbn [flat_map snd]. rewrite get_flag_images_app, <- Hblock. exact Hrun.
Qed.

Lemma make_poster_state (th : Theme) (st st' : State) (ops : list op) :
  make_poster tbl codes th st = Ok (ops, st') ->
  st' = get_flag_images (poster_codes tbl codes) st.
Proof.
  unfold make_poster.
  rewrite poster_loop_row_major by (unfold cols; lia).
  destruct (run_blocks _ _ _ _) as [[blocks st1]|] eqn:Hrun; [|discriminate].
  cbn [with_month mbind result_bind]. intros Heq. apply Ok_inj in Heq.
  apply run_blocks_state in Hrun.
  assert (Hst : st1 = st') by congruence. rewrite <- Hst. exact Hrun.
Qed.

End PosterState.



Lemma poster_codes_eq :
  poster_codes race_sundays COUNTRY_FLAG_CODES = race_codes.
Proof. vm_compute. reflexivity. Qed.

Lemma race_codes_distinct :
  size (list_to_set race_codes : gset string) = 21%nat.
Proof. vm_compute. reflexivity. Qed.

(** X5: drawn from an empty cache, on any platform and whatever the
    disk and the network answer, the poster of the script resolves the
    24 flag codes of its races in calendar order, ends with the 21
    distinct codes in the cache, and makes at most 21 network requests,
    none of them twice for one code. *)
Theorem poster_fetches_each_flag_once {P : Platform} (w : World) :
  exists ops st',
    make_poster race_sundays COUNTRY_FLAG_CODES theme (init_state w)
    = Ok (ops, st') /\
    st' = get_flag_images race_codes (init_state w) /\
    size (_flag_cache st') = 21%nat /\
    (net_attempts st' <= 21)%nat /\
    forall cc, (requests_for cc st' <= 1)%nat.
Proof.
  pose proof static_counts_eq as Hcounts. unfold static_counts in Hcounts.
  destruct (poster_static race_sundays theme) as [static|] eqn:Hstatic;
    [|discriminate].
  destruct (make_poster_static race_sundays COUNTRY_FLAG_CODES theme static
              Hstatic (init_state w)) as (ops & st' & Hrun & _).
  exists ops, st'. split; [exact Hrun|].
  apply (make_poster_state _ _ race_sundays_keys_unique) in Hrun.
  rewrite poster_codes_eq in Hrun. split; [exact Hrun|]. subst st'.
  assert (Hsize : size (_flag_cache (get_flag_images race_codes (init_state w)))
                  = 21%nat).
  { rewrite <- size_dom, get_flag_images_dom. cbn [init_state _flag_cache].
    rewrite dom_empty_L, union_empty_r_L. apply race_codes_distinct. }
  split; [exact Hsize|]. split.
  - rewrite <- Hsize. apply attempts_le_cached_run. cbn. lia.
  - intros cc.
    apply (fetched_once_run race_codes (init_state w) (fetched_once_init w) cc).
Qed.

(** ** Dates of 2026 *)

Lemma in_range2 (a b x : Z) : a <= x < b -> In x (py.range2 a b).
Proof.
  intros Hx. unfold py.range2. apply in_map_iff.
  exists (Z.to_nat (x - a)). split; [lia|]. apply in_seq. lia.
Qed.

Lemma range2_in (a b x : Z) : In x (py.range2 a b) -> a <= x < b.
Proof.
  unfold py.range2. intros Hin. apply in_map_iff in Hin as (k & <- & Hk).
  apply in_seq in Hk. lia.
Qed.

Lemma month_cases (m : Z) :
  1 <= m <= 12 ->
  m = 1 \/ m = 2 \/ m = 3 \/ m = 4 \/ m = 5 \/ m = 6 \/
  m = 7 \/ m = 8 \/ m = 9 \/ m = 10 \/ m = 11 \/ m = 12.
Proof. lia. Qed.

Ltac each_month H :=
  apply month_cases in H;
  destruct H as [->|[->|[->|[->|[->|[->|[->|[->|[->|[->|[->| ->]]]]]]]]]]].

Lemma days_in_month_eq (m : Z) :
  1 <= m <= 12 -> datetime._days_in_month 2026 m = days_in_month_2026 m.
Proof. intros Hm. each_month Hm; reflexivity. Qed.

Lemma new_2026_ok (m d : Z) :
  1 <= m <= 12 ->
  1 <= d <= days_in_month_2026 m ->
  datetime.new 2026 m d = Ok (datetime.mkdate 2026 m d).
Proof.
  intros Hm Hd. unfold datetime.new.
  change ((datetime.MINYEAR <=? 2026) && (2026 <=? datetime.MAXYEAR))
    with true.
  rewrite days_in_month_eq by exact Hm.
  rewrite !(proj2 (Z.leb_le _ _)) by lia. reflexivity.
Qed.

Lemma new_2026_inv (m d : Z) (dt : datetime.date) :
  datetime.new 2026 m d = Ok dt ->
  dt = datetime.mkdate 2026 m d /\
  1 <= m <= 12 /\ 1 <= d <= days_in_month_2026 m.
Proof.
  unfold datetime.new.
  change ((datetime.MINYEAR <=? 2026) && (2026 <=? datetime.MAXYEAR))
    with true.
  cbn [negb].
  destruct (Z.leb_spec 1 m); [|discriminate].
  destruct (Z.leb_spec m 12); [|discriminate].
  cbn [negb andb]. rewrite days_in_month_eq by lia.
  destruct (Z.leb_spec 1 d); [|discriminate].
  destruct (Z.leb_spec d (days_in_month_2026 m)); [|discriminate].
  cbn [negb andb]. intros Heq. apply Ok_inj in Heq. subst dt.
  repeat split; lia.
Qed.

Lemma dates_2026_in (m d : Z) :
  1 <= m <= 12 -> 1 <= d <= days_in_month_2026 m -> In (m, d) dates_2026.
Proof.
  intros Hm Hd. unfold dates_2026. apply in_flat_map.
  exists m. split; [apply in_range2; lia|].
  apply in_map, in_range2. lia.
Qed.

Lemma date_eqb_eq (a b : datetime.date) : date_eqb a b = true -> a = b.
Proof.
  destruct a, b. unfold date_eqb. cbn.
  rewrite !andb_true_iff, !Z.eqb_eq. intros [[-> ->] ->]. reflexivity.
Qed.

Lemma sub_days_checked :
  forallb (sub_days_check 1) dates_2026 = true /\
  forallb (sub_days_check 2) dates_2026 = true.
Proof. split; vm_compute; reflexivity. Qed.

(** One or two days before a date of 2026. *)
Lemma sub_days_2026 (m d k : Z) :
  1 <= m <= 12 ->
  1 <= d <= days_in_month_2026 m ->
  k = 1 \/ k = 2 ->
  exists dt,
    datetime.sub_days (datetime.mkdate 2026 m d) k = Ok dt /\
    (k < d -> dt = datetime.mkdate 2026 m (d - k)) /\
    (d <= k -> datetime.month dt <> m).
Proof.
  intros Hm Hd Hk.
  assert (Hcheck : sub_days_check k (m, d) = true).
  { destruct sub_days_checked as [H1 H2]. rewrite forallb_forall in H1, H2.
    destruct Hk as [->| ->]; [apply H1|apply H2]; apply dates_2026_in;
      assumption. }
  unfold sub_days_check in Hcheck. cbn [fst snd] in Hcheck.
  destruct (datetime.sub_days (datetime.mkdate 2026 m d) k) as [dt|];
    [|discriminate].
  exists dt. split; [reflexivity|].
  destruct (Z.ltb_spec k d) as [Hlt|Hge].
  - split; [intros _; apply date_eqb_eq, Hcheck|lia].
  - split; [lia|]. intros _ Heq. rewrite Heq, Z.eqb_refl in Hcheck.
    discriminate.
Qed.

(** ** The underline set of any table *)

Lemma underline_days_loop (tbl : race_table) (month : Z) :
  underline_days tbl month = for_each (underline_step month) ∅ tbl.
Proof. reflexivity. Qed.

Lemma underline_step_eq (month : Z) (acc : gset (Z * Z)) (m d : Z)
    (n : string) :
  underline_step month acc ((m, d), n)
  = if negb (m =? month)%Z then Ok acc
    else
      sun ← datetime.new 2026 m d;
      fri ← datetime.sub_days sun 2;
      sat ← datetime.sub_days sun 1;
      Ok (acc ∪ {[ (datetime.month fri, datetime.day fri) ]}
              ∪ {[ (datetime.month sat, datetime.day sat) ]}
              ∪ {[ (datetime.month sun, datetime.day sun) ]}).
Proof. reflexivity. Qed.

(** Which days of its own month a race weekend covers. *)
Lemma weekend_pairs (month d b : Z) (fri sat : datetime.date) :
  1 <= month <= 12 ->
  1 <= d <= days_in_month_2026 month ->
  datetime.sub_days (datetime.mkdate 2026 month d) 2 = Ok fri ->
  datetime.sub_days (datetime.mkdate 2026 month d) 1 = Ok sat ->
  ((datetime.month fri, datetime.day fri) = (month, b)
   \/ (datetime.month sat, datetime.day sat) = (month, b)
   \/ (month, d) = (month, b))
  <-> 1 <= b /\ d - 2 <= b <= d.
Proof.
  intros Hm Hd Hfri Hsat.
  destruct (sub_days_2026 month d 2 Hm Hd) as (fri' & Hf & Hfin & Hfout);
    [right; reflexivity|].
  destruct (sub_days_2026 month d 1 Hm Hd) as (sat' & Hs & Hsin & Hsout);
    [left; reflexivity|].
  rewrite Hfri in Hf. rewrite Hsat in Hs.
  apply Ok_inj in Hf. apply Ok_inj in Hs. subst fri' sat'.
  split.
  - intros [Heq|[Heq|Heq]].
    + injection Heq as Hmo Hda.
      destruct (Z.lt_ge_cases 2 d) as [Hlt|Hge].
      * rewrite (Hfin Hlt) in Hda. cbn in Hda. lia.
      * exfalso. apply (Hfout Hge). exact Hmo.
    + injection Heq as Hmo Hda.
      destruct (Z.lt_ge_cases 1 d) as [Hlt|Hge].
      * rewrite (Hsin Hlt) in Hda. cbn in Hda. lia.
      * exfalso. apply (Hsout Hge). exact Hmo.
    + assert (d = b) by congruence. lia.
  - intros [Hb Hrange].
    assert (Hcases : b = d \/ b = d - 1 \/ b = d - 2) by lia.
    destruct Hcases as [->|[->| ->]].
    + right. right. reflexivity.
    + right. left. rewrite (Hsin ltac:(lia)). reflexivity.
    + left. rewrite (Hfin ltac:(lia)). reflexivity.
Qed.

Section UnderlineSet.
Variable month : Z.
Hypothesis month_ok : 1 <= month <= 12.

(** With valid dates the loop returns, and the days of [month] in its
    set are those given and, for each entry of [month], the day of the
    entry and the one or two days before it in the month. *)
Lemma underline_run (l : race_table) (acc : gset (Z * Z)) :
  month_dates_valid l month ->
  exists ul,
    for_each (underline_step month) acc l = Ok ul /\
    forall b,
      (month, b) ∈ ul
      <-> (month, b) ∈ acc
          \/ exists d name,
               In ((month, d), name) l /\ 1 <= b /\ d - 2 <= b <= d.
Proof.
  revert acc. induction l as [|[[m d] n] l IH]; intros acc Hvalid.
  - exists acc. split; [reflexivity|]. intros b. split; [tauto|].
    intros [H|(d & n & [] & _)]. exact H.
  - assert (Hvalid' : month_dates_valid l month).
    { intros d' n' Hin. apply (Hvalid d' n'). right. exact Hin. }
    cbn [for_each]. rewrite underline_step_eq.
    destruct (Z.eqb_spec m month) as [->|Hne]; cbn [negb].
    + assert (Hd : 1 <= d <= days_in_month_2026 month).
      { apply (Hvalid d n). left. reflexivity. }
      rewrite (new_2026_ok month d month_ok Hd). cbn [mbind result_bind].
      destruct (sub_days_2026 month d 2 month_ok Hd)
        as (fri & Hfri & _); [right; reflexivity|].
      destruct (sub_days_2026 month d 1 month_ok Hd)
        as (sat & Hsat & _); [left; reflexivity|].
      rewrite Hfri. cbn [mbind result_bind].
      rewrite Hsat. cbn [mbind result_bind].
      match goal with
      | |- context [for_each _ ?a l] =>
          destruct (IH a Hvalid') as (ul & Hul & Hmem)
      end.
      exists ul. split; [exact Hul|]. intros b. rewrite Hmem.
      pose proof (weekend_pairs month d b fri sat month_ok Hd Hfri Hsat)
        as Hpairs.
      cbn [datetime.month datetime.day] in *.
      rewrite !elem_of_union, !elem_of_singleton. split.
      * intros [[[[H|H]|H]|H]|(d' & n' & Hin & Hb)].
        -- left. exact H.
        -- right. exists d, n. split; [left; reflexivity|].
           apply Hpairs. left. symmetry. exact H.
        -- right. exists d, n. split; [left; reflexivity|].
           apply Hpairs. right. left. symmetry. exact H.
        -- right. exists d, n. split; [left; reflexivity|].
           apply Hpairs. right. right. symmetry. exact H.
        -- right. exists d', n'. split; [right; exact Hin|exact Hb].
      * intros [H|(d' & n' & [Heq|Hin] & Hb)].
        -- left. left. left. left. exact H.
        -- injection Heq as <- <-. apply Hpairs in Hb.
           destruct Hb as [H|[H|H]]; symmetry in H; tauto.
        -- right. exists d', n'. split; assumption.
    + cbn [mbind result_bind].
      destruct (IH acc Hvalid') as (ul & Hul & Hmem).
      exists ul. split; [exact Hul|]. intros b. rewrite Hmem.
      split; intros [H|(d' & n' & Hin & Hb)]; try (left; exact H).
      * right. exists d', n'. split; [right; exact Hin|exact Hb].
      * destruct Hin as [Heq|Hin]; [congruence|].
        right. exists d', n'. split; assumption.
Qed.

(** The loop returns only if the entries of [month] are dates. *)
Lemma underline_run_inv (l : race_table) (acc ul : gset (Z * Z)) :
  for_each (underline_step month) acc l = Ok ul ->
  month_dates_valid l month.
Proof.
  revert acc. induction l as [|[[m d] n] l IH]; intros acc Hrun d' n' Hin.
  - destruct Hin.
  - cbn [for_each] in Hrun. rewrite underline_step_eq in Hrun.
    destruct (Z.eqb_spec m month) as [->|Hne]; cbn [negb] in Hrun.
    + destruct (datetime.new 2026 month d) as [sun|] eqn:Hnew;
        cbn [mbind result_bind] in Hrun; [|discriminate].
      destruct (datetime.sub_days sun 2) as [fri|];
        cbn [mbind result_bind] in Hrun; [|discriminate].
      destruct (datetime.sub_days sun 1) as [sat|];
        cbn [mbind result_bind] in Hrun; [|discriminate].
      destruct Hin as [Heq|Hin].
      * injection Heq as <- <-. apply new_2026_inv in Hnew. tauto.
      * apply (IH _ Hrun d' n' Hin).
    + cbn [mbind result_bind] in Hrun.
      destruct Hin as [Heq|Hin]; [congruence|].
      apply (IH _ Hrun d' n' Hin).
Qed.

End UnderlineSet.

(** ** The day cells of any matrix *)

Lemma draw_day_underlined {P : Platform} (th : Theme) (g : Grid)
    (month : Z) (ul : gset (Z * Z)) (r c day : Z) :
  existsb is_Line (draw_day th g month ul r c day)
  = negb (day =? 0) && bool_decide ((month, day) ∈ ul).
Proof.
  unfold draw_day. destruct (day =? 0); [reflexivity|].
  destruct (bool_decide ((month, day) ∈ ul)); reflexivity.
Qed.

Lemma list_of_length_7 {A} (l : list A) :
  length l = 7%nat ->
  exists a0 a1 a2 a3 a4 a5 a6, l = [a0; a1; a2; a3; a4; a5; a6].
Proof.
  intros H.
  destruct l as [|a0 [|a1 [|a2 [|a3 [|a4 [|a5 [|a6 [|]]]]]]]];
    try discriminate.
  eauto 10.
Qed.

Opaque draw_day.

(** On a matrix of 6 rows of 7 cells the day loops return, with the
    cells in reading order, and a cell gets the underline when its day
    is not 0 and is in the underline set with the month. *)
Lemma day_cells_6x7 {P : Platform} (th : Theme) (g : Grid) (month : Z)
    (weeks : list (list Z)) (ul : gset (Z * Z)) :
  length weeks = 6%nat ->
  Forall (fun week => length week = 7%nat) weeks ->
  exists cells,
    day_cells th g month weeks ul = Ok cells /\
    map fst cells = concat weeks /\
    Forall (fun c => existsb is_Line (snd c)
                     = negb (fst c =? 0)
                       && bool_decide ((month, fst c) ∈ ul))
           cells.
Proof.
  intros Hlen Hrows.
  destruct weeks as [|w0 [|w1 [|w2 [|w3 [|w4 [|w5 [|]]]]]]];
    try discriminate.
  repeat match goal with
         | H : Forall _ (_ :: _) |- _ =>
             apply Forall_cons_iff in H as [?Hrow H]
         end.
  repeat match goal with
         | H : length ?w = 7%nat |- _ =>
             apply list_of_length_7 in H
               as (? & ? & ? & ? & ? & ? & ? & ->)
         end.
  eexists. split; [cbn; reflexivity|]. split; [reflexivity|].
  repeat (constructor; [apply draw_day_underlined|]). constructor.
Qed.

Transparent draw_day.

(** ** The day matrix of a month *)

(** The matrix of a month holds the days of the month in order and has
    6 rows of 7 cells. *)
Lemma day_matrix_days (month : Z) :
  1 <= month <= 12 ->
  exists weeks,
    day_matrix month = Ok weeks /\
    length weeks = 6%nat /\
    Forall (fun week => length week = 7%nat) weeks /\
    nonzero_days weeks = py.range2 1 (days_in_month_2026 month + 1).
Proof.
  intros Hm. each_month Hm;
    (eexists; split; [vm_compute; reflexivity|];
     split; [reflexivity|]; split; [repeat constructor|reflexivity]).
Qed.

(** ** Which days are underlined, for any table *)

(** X6: for any race table whose entries of a month 1 to 12 are dates of
    2026, the cells underlined in the block of that month are the days
    of the month that are the day of an entry of the month or one of
    the two days before it; a day of a weekend that falls in the month
    before is underlined nowhere. *)
Theorem underlined_days_of_any_table {P : Platform} (tbl : race_table)
    (th : Theme) (g : Grid) (month : Z) :
  1 <= month <= 12 ->
  month_dates_valid tbl month ->
  exists l,
    rendered_underlines tbl th g month = Ok l /\
    forall a day,
      In (a, day) l
      <-> a = month /\ 1 <= day /\
          exists d name,
            In ((month, d), name) tbl /\ d - 2 <= day <= d.
Proof.
  intros Hm Hvalid.
  destruct (day_matrix_days month Hm)
    as (weeks & Hdm & Hlen & Hrows & Hdays).
  destruct (underline_run month Hm tbl ∅ Hvalid) as (ul & Hul & Hmem).
  destruct (day_cells_6x7 th g month weeks ul Hlen Hrows)
    as (cells & Hcells & Hfst & Hline).
  rewrite List.Forall_forall in Hline.
  unfold rendered_underlines. rewrite Hdm. cbn [mbind result_bind].
  rewrite underline_days_loop, Hul. cbn [mbind result_bind].
  rewrite Hcells. cbn [mbind result_bind].
  eexists. split; [reflexivity|]. intros a day.
  rewrite in_map_iff. split.
  - intros (c & Heq & Hin). apply filter_In in Hin as [Hin Hul'].
    rewrite (Hline c Hin) in Hul'. apply andb_true_iff in Hul' as [_ Hul'].
    apply bool_decide_eq_true_1 in Hul'. injection Heq as <- <-.
    apply Hmem in Hul' as [Hempty|(d & n & Hin' & Hb & Hrange)].
    + apply not_elem_of_empty in Hempty. destruct Hempty.
    + split; [reflexivity|]. split; [exact Hb|]. exists d, n. tauto.
  - intros (-> & Hday & d & n & Hin & Hrange).
    assert (Hd : 1 <= d <= days_in_month_2026 month) by apply (Hvalid d n Hin).
    assert (Hcell : In day (concat weeks)).
    { assert (Hnz : In day (nonzero_days weeks)).
      { rewrite Hdays. apply in_range2. lia. }
      apply filter_In in Hnz. tauto. }
    rewrite <- Hfst in Hcell. apply in_map_iff in Hcell as (c & Hc & Hin').
    exists c. split; [rewrite Hc; reflexivity|].
    apply filter_In. split; [exact Hin'|].
    rewrite (Hline c Hin'), Hc. apply andb_true_iff. split.
    + apply negb_true_iff, Z.eqb_neq. lia.
    + apply bool_decide_eq_true_2, Hmem. right. exists d, n. tauto.
Qed.

Lemma november_dates_valid : month_dates_valid race_sundays 11.
Proof.
  intros d name Hin. unfold race_sundays in Hin. cbn [In] in Hin.
  repeat (destruct Hin as [Heq|Hin];
          [inversion Heq; subst; cbn; lia|]).
  destruct Hin.
Defined.

Lemma underlined_days_of_any_table_witness :
  exists l,
    rendered_underlines (P := offline) race_sundays theme
      (mkGrid 0%float 0%float 0%float 0%float 0%float) 11 = Ok l /\
    forall a day,
      In (a, day) l
      <-> a = 11 /\ 1 <= day /\
          exists d name,
            In ((11, d), name) race_sundays /\ d - 2 <= day <= d.
Proof.
  apply (underlined_days_of_any_table (P := offline) race_sundays theme
           (mkGrid 0%float 0%float 0%float 0%float 0%float) 11).
  - lia.
  - exact november_dates_valid.
Defined.

(** ** When drawing returns *)

Lemma month_name_ok (month : Z) :
  1 <= month <= 12 ->
  exists name, py.index calendar.month_name month = Ok name.
Proof. intros Hm. each_month Hm; eexists; reflexivity. Qed.

Lemma month_weeks_inv (month : Z) (weeks : list (list Z)) :
  month_weeks month = Ok weeks -> 1 <= month <= 12.
Proof.
  unfold month_weeks, calendar.monthdayscalendar, calendar.itermonthdays,
    calendar.monthrange.
  destruct (Z.leb_spec 1 month); [|discriminate].
  destruct (Z.leb_spec month 12); [|discriminate].
  intros _. lia.
Qed.

Lemma dict_get_some {V} (d : list ((Z * Z) * V)) (k : Z * Z) (v : V) :
  In (k, v) d -> exists v', py.dict_get d k = Some v'.
Proof.
  induction d as [|[k' v'] d IH]; intros Hin; [destruct Hin|].
  cbn [py.dict_get]. destruct (decide (k' = k)) as [_|Hne]; [eauto|].
  destruct Hin as [Heq|Hin]; [congruence|]. apply IH, Hin.
Qed.

Lemma list_comp_ok {A B} (f : A -> result (option B)) (l : list A) :
  (forall a, In a l -> exists ob, f a = Ok ob) ->
  exists bs, py.list_comp f l = Ok bs.
Proof.
  induction l as [|a l IH]; intros Hf; [eexists; reflexivity|].
  destruct (Hf a) as [ob Hob]; [left; reflexivity|].
  destruct IH as [bs Hbs]; [intros a' Ha'; apply Hf; right; exact Ha'|].
  cbn [py.list_comp]. rewrite Hob. cbn [mbind result_bind].
  rewrite Hbs. eexists. reflexivity.
Qed.

(** The lookup of a key of the table never raises [KeyError]. *)
Lemma month_races_total (tbl : race_table) (month : Z) :
  exists races, month_races tbl month = Ok races.
Proof.
  unfold month_races.
  match goal with
  | |- context [py.list_comp ?f tbl] =>
      destruct (list_comp_ok f tbl) as [races Hraces]
  end.
  - intros [[m d] n] Hin.
    destruct (Z.eqb_spec m month) as [->|Hne]; [|eexists; reflexivity].
    destruct (dict_get_some tbl (month, d) n Hin) as [n' Hn'].
    unfold py.dict_item. rewrite Hn'. eexists. reflexivity.
  - rewrite Hraces. eexists. reflexivity.
Qed.

Section Returns.
Context {P : Platform}.
Variable tbl : race_table.
Variable codes : gmap string string.

Lemma month_block_returns (x y w h : float) (month : Z) (th : Theme) :
  1 <= month <= 12 ->
  month_dates_valid tbl month ->
  exists r, month_block tbl x y w h month th = Ok r.
Proof.
  intros Hm Hvalid. unfold month_block.
  destruct (month_name_ok month Hm) as [name Hname]. rewrite Hname.
  cbn [mbind result_bind]. lazy zeta.
  destruct (day_matrix_days month Hm) as (weeks & Hdm & Hlen & Hrows & _).
  unfold day_matrix in Hdm.
  destruct (month_weeks month) as [weeks0|]; [|discriminate].
  cbn [mbind result_bind] in Hdm |- *. apply Ok_inj in Hdm.
  destruct (underline_run month Hm tbl ∅ Hvalid) as (ul & Hul & _).
  rewrite underline_days_loop, Hul. cbn [mbind result_bind].
  rewrite Hdm.
  match goal with
  | |- context [day_cells ?t ?g ?m weeks ul] =>
      destruct (day_cells_6x7 t g m weeks ul Hlen Hrows)
        as (cells & Hcells & _)
  end.
  rewrite Hcells. cbn [mbind result_bind].
  destruct (month_races_total tbl month) as [races Hraces].
  rewrite Hraces. cbn [mbind result_bind]. eexists. reflexivity.
Qed.

Lemma month_block_returns_inv (x y w h : float) (month : Z) (th : Theme)
    (r : list op * float * float * float * list (Z * string)) :
  month_block tbl x y w h month th = Ok r ->
  1 <= month <= 12 /\ month_dates_valid tbl month.
Proof.
  unfold month_block.
  destruct (py.index calendar.month_name month) as [name|]; [|discriminate].
  cbn [mbind result_bind]. lazy zeta.
  destruct (month_weeks month) as [weeks|] eqn:Hweeks; [|discriminate].
  cbn [mbind result_bind].
  destruct (underline_days tbl month) as [ul|] eqn:Hul; [|discriminate].
  intros _. pose proof (month_weeks_inv month weeks Hweeks) as Hm.
  split; [exact Hm|].
  rewrite underline_days_loop in Hul.
  apply (underline_run_inv month Hm tbl ∅ ul Hul).
Qed.

Lemma draw_month_returns_iff (x y w h : float) (month : Z) (th : Theme)
    (st : State) :
  (exists ops st', draw_month tbl codes x y w h month th st = Ok (ops, st'))
  <-> 1 <= month <= 12 /\ month_dates_valid tbl month.
Proof.
  split.
  - intros (ops & st' & Hdraw).
    apply draw_month_inv in Hdraw as (pre & gl & ti & ly & races & Hb & _).
    apply (month_block_returns_inv _ _ _ _ _ _ _ Hb).
  - intros [Hm Hvalid].
    destruct (month_block_returns x y w h month th Hm Hvalid)
      as [[[[[pre gl] ti] ly] races] Hb].
    unfold draw_month. rewrite Hb. cbn [mbind result_bind].
    destruct (draw_race_list codes gl ti ly races st) as [list_ops st'].
    eexists. eexists. reflexivity.
Qed.

Lemma draw_block_returns_iff (th : Theme) (r c m : Z) (st : State) :
  (exists ops st', draw_block tbl codes th r c m st = Ok (ops, st'))
  <-> 1 <= m <= 12 /\ month_dates_valid tbl m.
Proof.
  rewrite <- (draw_month_returns_iff (block_x c) (block_y r) cell_w cell_h
                m th st).
  unfold draw_block.
  destruct (draw_month tbl codes (block_x c) (block_y r) cell_w cell_h m
              th st) as [[ops st']|]; cbn [mbind result_bind].
  - split; intros _; eexists; eexists; reflexivity.
  - split; intros (ops & st' & H); discriminate.
Qed.

Lemma run_blocks_returns_iff (th : Theme) (blocks : list (Z * Z * Z))
    (ops0 : list op) (st : State) :
  (exists ops st',
     run_blocks (draw_block tbl codes th) blocks ops0 st = Ok (ops, st'))
  <-> forall r c m,
        In (r, c, m) blocks -> 1 <= m <= 12 /\ month_dates_valid tbl m.
Proof.
  revert ops0 st. induction blocks as [|[[r c] m] blocks IH]; intros ops0 st.
  - split; [intros _ r c m []|]. intros _. eexists. eexists. reflexivity.
  - cbn [run_blocks].
    pose proof (draw_block_returns_iff th r c m st) as Hblock.
    destruct (draw_block tbl codes th r c m st) as [[bops st1]|];
      cbn [mbind result_bind].
    + rewrite IH. split.
      * intros Hrest r' c' m' [Heq|Hin]; [|apply (Hrest r' c' m' Hin)].
        injection Heq as <- <- <-. apply Hblock. eexists. eexists.
        reflexivity.
      * intros Hall r' c' m' Hin. apply (Hall r' c' m'). right. exact Hin.
    + split; [intros (ops & st' & H); discriminate|].
      intros Hall. exfalso.
      destruct (proj2 Hblock (Hall r c m (or_introl eq_refl)))
        as (ops & st' & H).
      discriminate.
Qed.

End Returns.

(** X7: [draw_month] returns, in any state and on any platform, exactly
    when the month is 1 to 12 and every entry of the table for that
    month is a date of 2026; otherwise it raises. *)
Theorem draw_month_returns_iff_dates_valid {P : Platform}
    (tbl : race_table) (codes : gmap string string) (x y w h : float)
    (month : Z) (th : Theme) (st : State) :
  (exists ops st', draw_month tbl codes x y w h month th st = Ok (ops, st'))
  <-> 1 <= month <= 12 /\
      forall d name,
        In ((month, d), name) tbl -> 1 <= d <= days_in_month_2026 month.
Proof. apply draw_month_returns_iff. Qed.

(** X8: [make_poster] returns, in any state and on any platform, exactly
    when every entry of the table with a month 1 to 12 is a date of
    2026; an entry with another month is never looked at. *)
Theorem make_poster_returns_iff_dates_valid {P : Platform}
    (tbl : race_table) (codes : gmap string string) (th : Theme)
    (st : State) :
  (exists ops st', make_poster tbl codes th st = Ok (ops, st'))
  <-> forall m d name,
        In ((m, d), name) tbl ->
        1 <= m <= 12 ->
        1 <= d <= days_in_month_2026 m.
Proof.
  unfold make_poster.
  rewrite poster_loop_row_major by (unfold cols; lia).
  pose proof (run_blocks_returns_iff tbl codes th (row_major rows cols) [] st)
    as Hblocks.
  destruct (run_blocks (draw_block tbl codes th) (row_major rows cols) [] st)
    as [[blocks st1]|]; cbn [with_month mbind result_bind].
  - split.
    + intros _ m d name Hin Hm.
      assert (Hall := proj1 Hblocks
                        (ex_intro _ blocks (ex_intro _ st1 eq_refl))).
      assert (Hcell : exists r c, In (r, c, m) (row_major rows cols)).
      { each_month Hm; vm_compute; eauto 20. }
      destruct Hcell as (r & c & Hcell).
      apply (Hall r c m Hcell) in Hin. exact Hin.
    + intros _. eexists. eexists. reflexivity.
  - split; [intros (ops & st' & H); discriminate|].
    intros Hall. exfalso.
    destruct (proj2 Hblocks) as (ops & st' & H); [|discriminate].
    intros r c m Hin.
    assert (Hm : 1 <= m <= 12).
    { vm_compute in Hin.
      repeat (destruct Hin as [Heq|Hin]; [injection Heq as _ _ <-; lia|]).
      destruct Hin. }
    split; [exact Hm|]. intros d name Hin'. apply (Hall m d name Hin' Hm).
Qed.

(** ** The text of a block *)

Lemma filter_plain (p : op -> bool) (l : list op) :
  (forall o, is_plain o = true -> p o = false) ->
  forallb is_plain l = true ->
  List.filter p l = [].
Proof.
  intros Hp. induction l as [|o l IH]; [reflexivity|].
  cbn [forallb List.filter]. intros H. apply andb_true_iff in H as [Ho Hl].
  rewrite (Hp o Ho). apply IH, Hl.
Qed.

Lemma forallb_concat {A} (p : A -> bool) (ls : list (list A)) :
  (forall l, In l ls -> forallb p l = true) ->
  forallb p (concat ls) = true.
Proof.
  induction ls as [|l ls IH]; intros H; [reflexivity|].
  cbn [concat]. rewrite forallb_app. apply andb_true_iff. split.
  - apply H. left. reflexivity.
  - apply IH. intros l' Hl'. apply H. right. exact Hl'.
Qed.

Lemma list_comp_inv {A B} (f : A -> result (option B)) (l : list A)
    (bs : list B) :
  py.list_comp f l = Ok bs ->
  forall b, In b bs -> exists a, In a l /\ f a = Ok (Some b).
Proof.
  revert bs. induction l as [|a l IH]; intros bs Hcomp b Hb.
  - apply Ok_inj in Hcomp. subst bs. destruct Hb.
  - cbn [py.list_comp] in Hcomp.
    destruct (f a) as [ob|] eqn:Hfa; cbn [mbind result_bind] in Hcomp;
      [|discriminate].
    destruct (py.list_comp f l) as [rest|]; cbn [mbind result_bind] in Hcomp;
      [|discriminate].
    apply Ok_inj in Hcomp. subst bs.
    destruct ob as [b'|].
    + destruct Hb as [->|Hb].
      * exists a. split; [left; reflexivity|exact Hfa].
      * destruct (IH rest eq_refl b Hb) as (a' & Ha' & Hfa').
        exists a'. split; [right; exact Ha'|exact Hfa'].
    + destruct (IH rest eq_refl b Hb) as (a' & Ha' & Hfa').
      exists a'. split; [right; exact Ha'|exact Hfa'].
Qed.

Section BlockText.
Context {P : Platform}.

Lemma draw_day_plain (th : Theme) (g : Grid) (month : Z)
    (ul : gset (Z * Z)) (r c day : Z) :
  forallb is_plain (draw_day th g month ul r c day) = true.
Proof.
  unfold draw_day. destruct (day =? 0); [reflexivity|].
  destruct (bool_decide ((month, day) ∈ ul)); reflexivity.
Qed.

(** Every cell the day loops return was drawn by [draw_day]. *)
Lemma day_cells_inv (th : Theme) (g : Grid) (month : Z)
    (weeks : list (list Z)) (ul : gset (Z * Z))
    (cells : list (Z * list op)) :
  day_cells th g month weeks ul = Ok cells ->
  forall c, In c cells ->
  exists r col, snd c = draw_day th g month ul r col (fst c).
Proof.
  unfold day_cells. intros Hcells c Hc.
  destruct (py.list_comp _ (py.range 6)) as [rows|] eqn:Hrows;
    cbn [mbind result_bind] in Hcells; [|discriminate].
  apply Ok_inj in Hcells. subst cells.
  apply in_concat in Hc as (row & Hrow & Hc).
  destruct (list_comp_inv _ _ _ Hrows row Hrow) as (r & _ & Hr).
  cbn beta in Hr.
  destruct (py.index weeks r) as [week|]; cbn [mbind result_bind] in Hr;
    [|discriminate].
  destruct (py.list_comp _ (py.range 7)) as [cs|] eqn:Hcs;
    cbn [mbind result_bind] in Hr; [|discriminate].
  apply Ok_inj in Hr. injection Hr as ->.
  destruct (list_comp_inv _ _ _ Hcs c Hc) as (col & _ & Hcol).
  cbn beta in Hcol.
  destruct (py.index week col) as [day|]; cbn [mbind result_bind] in Hcol;
    [|discriminate].
  apply Ok_inj in Hcol. injection Hcol as <-.
  exists r, col. reflexivity.
Qed.

Lemma day_cells_plain (th : Theme) (g : Grid) (month : Z)
    (weeks : list (list Z)) (ul : gset (Z * Z))
    (cells : list (Z * list op)) :
  day_cells th g month weeks ul = Ok cells ->
  forallb is_plain (concat (map snd cells)) = true.
Proof.
  intros Hcells. apply forallb_concat. intros l Hl.
  apply in_map_iff in Hl as (c & <- & Hc).
  destruct (day_cells_inv _ _ _ _ _ _ Hcells c Hc) as (r & col & ->).
  apply draw_day_plain.
Qed.

(** All that [draw_month] draws before the race list is, after the
    month's name, neither text nor image. *)
Lemma month_block_plain (tbl : race_table) (x y w h : float) (month : Z)
    (th : Theme) (pre : list op) (gl ti ly : float)
    (races : list (Z * string)) :
  month_block tbl x y w h month th = Ok (pre, gl, ti, ly, races) ->
  exists name rest,
    py.index calendar.month_name month = Ok name /\
    pre = [ SetFillColor (ink th);
            SetFont (font th) 14;
            DrawString (PrimFloat.add x (PrimFloat.mul 0.12 inch))
                       (PrimFloat.sub
                          (PrimFloat.sub y (PrimFloat.mul 0.12 inch))
                          (Zf 10))
                       (py.upper name) ] ++ rest /\
    forallb is_plain rest = true.
Proof.
  unfold month_block.
  destruct (py.index calendar.month_name month) as [name|]; [|discriminate].
  cbn [mbind result_bind]. lazy zeta.
  destruct (month_weeks month) as [weeks|]; [|discriminate].
  cbn [mbind result_bind].
  destruct (underline_days tbl month) as [ul|]; [|discriminate].
  cbn [mbind result_bind].
  match goal with
  | |- context [day_cells ?t ?g ?m ?ws ?u] =>
      destruct (day_cells t g m ws u) as [cells|] eqn:Hcells;
        [|discriminate]
  end.
  cbn [mbind result_bind].
  destruct (month_races tbl month) as [rs|]; [|discriminate].
  cbn [mbind result_bind].
  intros Heq. apply Ok_inj in Heq.
  apply (f_equal (fun t => fst (fst (fst (fst t))))) in Heq.
  cbn [fst] in Heq. subst pre.
  exists name. eexists. split; [reflexivity|]. split; [reflexivity|].
  rewrite !forallb_app. rewrite (day_cells_plain _ _ _ _ _ _ Hcells).
  reflexivity.
Qed.

End BlockText.

Section BlockTextTheorems.
Context {P : Platform}.
Variable tbl : race_table.
Variable codes : gmap string string.

Lemma race_lines_plain_images (ti ly : float) (races : list (Z * string)) :
  List.filter is_DrawImage (race_lines ti ly races) = [].
Proof.
  revert ly. induction races as [|[d n] races IH]; intros ly; cbn;
    [reflexivity|apply IH].
Qed.

(** At most one flag image is drawn for a race. *)
Lemma draw_race_list_images (gl ti ly : float) (races : list (Z * string))
    (st : State) :
  (length (List.filter is_DrawImage
             (fst (draw_race_list codes gl ti ly races st)))
   <= length races)%nat.
Proof.
  revert ly st. induction races as [|[d n] races IH]; intros ly st.
  - cbn. lia.
  - cbn [draw_race_list].
    set (flag := match codes !! n with
                 | Some cc => _
                 | None => _
                 end).
    assert (Hflag : (length (List.filter is_DrawImage (fst flag)) <= 1)%nat).
    { subst flag. destruct (codes !! n) as [cc|]; [|cbn; lia].
      destruct (py.truthy cc); [|cbn; lia].
      destruct (get_flag_image cc st) as [[hd|] st1]; cbn; lia. }
    destruct flag as [fl st1].
    specialize (IH (PrimFloat.sub ly (Zf 10)) st1).
    destruct (draw_race_list codes gl ti (PrimFloat.sub ly (Zf 10)) races st1)
      as [rest st2].
    cbn [fst length] in *.
    rewrite List.filter_app, length_app. cbn [List.filter is_DrawImage].
    lia.
Qed.

Lemma draw_month_text (x y w h : float) (month : Z) (th : Theme)
    (st st' : State) (ops : list op) :
  draw_month tbl codes x y w h month th st = Ok (ops, st') ->
  exists name races ly,
    py.index calendar.month_name month = Ok name /\
    month_races tbl month = Ok races /\
    List.filter is_DrawString ops
    = DrawString (PrimFloat.add x (PrimFloat.mul 0.12 inch))
                 (PrimFloat.sub (PrimFloat.sub y (PrimFloat.mul 0.12 inch))
                                (Zf 10))
                 (py.upper name)
      :: race_lines
           (PrimFloat.add
              (PrimFloat.add (PrimFloat.add x (PrimFloat.mul 0.12 inch))
                             (Zf 14))
              (Zf 4))
           ly races /\
    (length (List.filter is_DrawImage ops) <= length races)%nat /\
    st' = get_flag_images (codes_tried codes races) st.
Proof.
  intros Hdraw.
  apply draw_month_inv in Hdraw
    as (pre & gl & ti & ly & races & Hblock & Hops & Hst).
  destruct (month_block_plain _ _ _ _ _ _ _ _ _ _ _ _ Hblock)
    as (name & rest & Hname & Hpre & Hplain).
  apply month_block_inv in Hblock as (Hgl & Hti & Hraces).
  exists name, races, ly. split; [exact Hname|]. split; [exact Hraces|].
  subst ops pre gl ti.
  rewrite !List.filter_app, draw_race_list_strings.
  rewrite (filter_plain is_DrawString rest), (filter_plain is_DrawImage rest);
    try exact Hplain.
  - split; [reflexivity|]. split.
    + cbn [List.filter is_DrawImage app]. apply draw_race_list_images.
    + rewrite Hst. apply draw_race_list_state.
  - intros o Ho. unfold is_plain in Ho. apply andb_true_iff in Ho as [_ Ho].
    apply negb_true_iff in Ho. exact Ho.
  - intros o Ho. unfold is_plain in Ho. apply andb_true_iff in Ho as [Ho _].
    apply negb_true_iff in Ho. exact Ho.
Qed.

End BlockTextTheorems.

(** X9: the text a block writes with [drawString] is the month's name at
    the block's top left followed by one line per race of the month, in
    the order of [races], all at the text indent; at most one flag image
    is drawn per race; and the state after the block is the state after
    resolving the flag codes of these races in that order. *)
Theorem block_text_is_name_and_races {P : Platform} (tbl : race_table)
    (codes : gmap string string) (x y w h : float) (month : Z)
    (th : Theme) (st st' : State) (ops : list op) :
  draw_month tbl codes x y w h month th st = Ok (ops, st') ->
  exists name races ly,
    py.index calendar.month_name month = Ok name /\
    month_races tbl month = Ok races /\
    List.filter is_DrawString ops
    = DrawString (PrimFloat.add x (PrimFloat.mul 0.12 inch))
                 (PrimFloat.sub (PrimFloat.sub y (PrimFloat.mul 0.12 inch))
                                (Zf 10))
                 (py.upper name)
      :: race_lines
           (PrimFloat.add
              (PrimFloat.add (PrimFloat.add x (PrimFloat.mul 0.12 inch))
                             (Zf 14))
              (Zf 4))
           ly races /\
    (length (List.filter is_DrawImage ops) <= length races)%nat /\
    st' = get_flag_images (codes_tried codes races) st.
Proof. apply draw_month_text. Qed.

Lemma block_text_is_name_and_races_witness :
  exists name races ly,
    py.index calendar.month_name 3 = Ok name /\
    month_races atlantis 3 = Ok races /\
    List.filter is_DrawString atlantis_ops
    = DrawString (PrimFloat.add 0%float (PrimFloat.mul 0.12 inch))
                 (PrimFloat.sub
                    (PrimFloat.sub 0%float (PrimFloat.mul 0.12 inch))
                    (Zf 10))
                 (py.upper name)
      :: race_lines
           (PrimFloat.add
              (PrimFloat.add
                 (PrimFloat.add 0%float (PrimFloat.mul 0.12 inch))
                 (Zf 14))
              (Zf 4))
           ly races /\
    (length (List.filter is_DrawImage atlantis_ops) <= length races)%nat /\
    offline_start
    = get_flag_images (P := offline)
        (codes_tried COUNTRY_FLAG_CODES races) offline_start.
Proof.
  apply (block_text_is_name_and_races (P := offline) atlantis
           COUNTRY_FLAG_CODES 0%float 0%float 400%float 400%float 3 theme
           offline_start offline_start atlantis_ops).
  vm_compute. reflexivity.
Defined.

(** ** A month without races *)

Lemma underline_skip (month : Z) (l : race_table) (acc : gset (Z * Z)) :
  no_race_in l month -> for_each (underline_step month) acc l = Ok acc.
Proof.
  induction l as [|[[m d] n] l IH]; intros Hnone; [reflexivity|].
  cbn [for_each]. rewrite underline_step_eq.
  destruct (Z.eqb_spec m month) as [->|Hne].
  - exfalso. apply (Hnone d n). left. reflexivity.
  - cbn [negb mbind result_bind]. apply IH.
    intros d' n' Hin. apply (Hnone d' n'). right. exact Hin.
Qed.

Lemma month_races_none (tbl : race_table) (month : Z) :
  no_race_in tbl month -> month_races tbl month = Ok [].
Proof.
  intros Hnone. unfold month_races.
  match goal with
  | |- context [py.list_comp ?f tbl] =>
      assert (Hcomp : forall l, (forall e, In e l -> In e tbl) ->
                                py.list_comp f l = Ok [])
  end.
  { induction l as [|[[m d] n] l IH]; intros Hincl; [reflexivity|].
    cbn [py.list_comp].
    destruct (Z.eqb_spec m month) as [->|Hne].
    - exfalso. apply (Hnone d n), Hincl. left. reflexivity.
    - cbn [mbind result_bind]. rewrite IH; [reflexivity|].
      intros e He. apply Hincl. right. exact He. }
  rewrite Hcomp by auto. reflexivity.
Qed.

(** X10: for a month 1 to 12 without an entry in the table, the
    underline set and the race list are empty, no cell of the block is
    underlined, and [draw_month] returns having written only the
    month's name, drawn no flag and left the state as it was. *)
Theorem month_without_races {P : Platform} (tbl : race_table)
    (codes : gmap string string) (x y w h : float) (month : Z)
    (th : Theme) (st : State) :
  1 <= month <= 12 ->
  (forall d name, ~ In ((month, d), name) tbl) ->
  underline_days tbl month = Ok ∅ /\
  month_races tbl month = Ok [] /\
  (forall g, rendered_underlines tbl th g month = Ok []) /\
  exists ops name,
    draw_month tbl codes x y w h month th st = Ok (ops, st) /\
    py.index calendar.month_name month = Ok name /\
    List.filter is_DrawString ops
    = [ DrawString (PrimFloat.add x (PrimFloat.mul 0.12 inch))
                   (PrimFloat.sub
                      (PrimFloat.sub y (PrimFloat.mul 0.12 inch))
                      (Zf 10))
                   (py.upper name) ] /\
    List.filter is_DrawImage ops = [].
Proof.
  intros Hm Hnone.
  assert (Hul : underline_days tbl month = Ok ∅).
  { rewrite underline_days_loop. exact (underline_skip month tbl ∅ Hnone). }
  assert (Hraces : month_races tbl month = Ok [])
    by exact (month_races_none tbl month Hnone).
  split; [exact Hul|]. split; [exact Hraces|]. split.
  - intros g. unfold rendered_underlines.
    destruct (day_matrix_days month Hm) as (weeks & Hdm & Hlen & Hrows & _).
    rewrite Hdm. cbn [mbind result_bind]. rewrite Hul.
    cbn [mbind result_bind].
    destruct (day_cells_6x7 th g month weeks ∅ Hlen Hrows)
      as (cells & Hcells & _ & Hline).
    rewrite Hcells. cbn [mbind result_bind]. f_equal.
    replace (List.filter (fun c => existsb is_Line (snd c)) cells)
      with (@nil (Z * list op)); [reflexivity|].
    symmetry. clear Hcells.
    induction Hline as [|c cells Hc _ IH]; [reflexivity|].
    cbn [List.filter]. rewrite Hc.
    rewrite (bool_decide_eq_false_2 _ (not_elem_of_empty _)).
    rewrite andb_false_r. exact IH.
  - assert (Hvalid : month_dates_valid tbl month).
    { intros d name Hin. destruct (Hnone d name Hin). }
    destruct (proj2 (draw_month_returns_iff tbl codes x y w h month th st)
                (conj Hm Hvalid)) as (ops & st' & Hdraw).
    destruct (draw_month_text tbl codes x y w h month th st st' ops Hdraw)
      as (name & races & ly & Hname & Hraces' & Htext & Himg & Hst).
    rewrite Hraces in Hraces'. apply Ok_inj in Hraces'. subst races.
    cbn in Hst. subst st'. exists ops, name.
    split; [exact Hdraw|]. split; [exact Hname|]. split; [exact Htext|].
    cbn [length] in Himg.
    destruct (List.filter is_DrawImage ops); [reflexivity|cbn in Himg; lia].
Qed.

Lemma january_has_no_race : forall d name, ~ In ((1, d), name) race_sundays.
Proof.
  intros d name Hin. unfold race_sundays in Hin. cbn [In] in Hin.
  repeat (destruct Hin as [Heq|Hin]; [discriminate Heq|]).
  exact Hin.
Defined.

Lemma month_without_races_witness :
  underline_days race_sundays 1 = Ok ∅ /\
  month_races race_sundays 1 = Ok [] /\
  (forall g, rendered_underlines (P := offline) race_sundays theme g 1
             = Ok []) /\
  exists ops name,
    draw_month (P := offline) race_sundays COUNTRY_FLAG_CODES
      0%float 0%float 400%float 400%float 1 theme offline_start
    = Ok (ops, offline_start) /\
    py.index calendar.month_name 1 = Ok name /\
    List.filter is_DrawString ops
    = [ DrawString (PrimFloat.add 0%float (PrimFloat.mul 0.12 inch))
                   (PrimFloat.sub
                      (PrimFloat.sub 0%float (PrimFloat.mul 0.12 inch))
                      (Zf 10))
                   (py.upper name) ] /\
    List.filter is_DrawImage ops = [].
Proof.
  apply (month_without_races (P := offline) race_sundays COUNTRY_FLAG_CODES
           0%float 0%float 400%float 400%float 1 theme offline_start).
  - lia.
  - exact january_has_no_race.
Defined.

(** ** Columns and weekdays *)

Ltac cell_by_cell Hr Hc Hday :=
  let week_cases c :=
    (do 7 (destruct c as [|c];
           [ cbn [nth_error] in Hc; injection Hc as <-;
             first [ exfalso; apply Hday; reflexivity
                   | split; vm_compute; reflexivity ]
           | ]);
     destruct c; cbn [nth_error] in Hc; discriminate Hc) in
  match type of Hr with
  | nth_error _ ?r = _ =>
      match type of Hc with
      | nth_error _ ?c = _ =>
          do 6 (destruct r as [|r];
                [ cbn [nth_error] in Hr; injection Hr as <-; week_cases c
                | ]);
          destruct r; cbn [nth_error] in Hr; discriminate Hr
      end
  end.

(** X11: in the day matrix of every month, a day in column [c] is a
    date of 2026 whose weekday is the one of the column, Sunday for
    column 0 up to Saturday for column 6, and the letter of the weekday
    header over column [c] is the initial of that weekday. *)
Theorem columns_are_weekdays (month : Z) :
  1 <= month <= 12 ->
  exists weeks,
    day_matrix month = Ok weeks /\
    forall r c week day,
      nth_error weeks r = Some week ->
      nth_error week c = Some day ->
      day <> 0 ->
      calendar.weekday 2026 month day = Ok (column_weekday (Z.of_nat c)) /\
      nth_error weekdays c
      = Some (initial
                (nth (Z.to_nat (column_weekday (Z.of_nat c))) day_name "")).
Proof.
  intros Hm. each_month Hm;
    (eexists; split; [vm_compute; reflexivity|];
     intros r c week day Hr Hc Hday; cell_by_cell Hr Hc Hday).
Qed.

Lemma columns_are_weekdays_witness :
  exists weeks,
    day_matrix 11 = Ok weeks /\
    forall r c week day,
      nth_error weeks r = Some week ->
      nth_error week c = Some day ->
      day <> 0 ->
      calendar.weekday 2026 11 day = Ok (column_weekday (Z.of_nat c)) /\
      nth_error weekdays c
      = Some (initial
                (nth (Z.to_nat (column_weekday (Z.of_nat c))) day_name "")).
Proof. apply (columns_are_weekdays 11). lia. Defined.

(** ** The room under the grid *)

Lemma month_block_list_y {P : Platform} (tbl : race_table)
    (x y w h : float) (month : Z) (th : Theme)
    (pre : list op) (gl ti ly : float) (races : list (Z * string)) :
  month_block tbl x y w h month th = Ok (pre, gl, ti, ly, races) ->
  ly = list_y_top_of y h.
Proof.
  unfold month_block.
  destruct (py.index calendar.month_name month) as [name|]; [|discriminate].
  cbn [mbind result_bind]. lazy zeta.
  destruct (month_weeks month) as [weeks|]; [|discriminate].
  cbn [mbind result_bind].
  destruct (underline_days tbl month) as [ul|]; [|discriminate].
  cbn [mbind result_bind].
  match goal with
  | |- context [day_cells ?t ?g ?m ?ws ?u] =>
      destruct (day_cells t g m ws u) as [cells|]; [|discriminate]
  end.
  cbn [mbind result_bind].
  destruct (month_races tbl month) as [rs|]; [|discriminate].
  cbn [mbind result_bind].
  intros Heq. apply Ok_inj in Heq.
  apply (f_equal (fun t => snd (fst t))) in Heq. cbn [fst snd] in Heq.
  subst ly. reflexivity.
Qed.

Lemma race_lines_nth (ti ly : float) (races : list (Z * string)) (k : nat)
    (d : Z) (name : string) :
  nth_error races k = Some (d, name) ->
  nth_error (race_lines ti ly races) k
  = Some (DrawString ti (line_y ly k) (race_line d name)).
Proof.
  revert ly k. induction races as [|[d' n'] races IH]; intros ly k Hk.
  - destruct k; discriminate Hk.
  - destruct k as [|k].
    + cbn in Hk. injection Hk as -> ->. reflexivity.
    + cbn [nth_error race_lines line_y] in *. apply IH, Hk.
Qed.

Lemma lines_fit_checked :
  forallb
    (fun r =>
       forallb
         (fun k =>
            PrimFloat.leb (PrimFloat.add (block_bottom r) (Zf 20))
              (line_y (list_y_top_of (block_y r) cell_h) k))
         [0; 1; 2; 3]%nat
       && PrimFloat.ltb (line_y (list_y_top_of (block_y r) cell_h) 6)
            (block_bottom r))
    [0; 1; 2; 3]
  = true.
Proof. vm_compute. reflexivity. Qed.

(** X12: in a block of the poster the race line number [k] is written
    with its baseline at [list_y_top] less [k] steps of 10 points.  In
    each of the four page rows the first four lines have their baseline
    at least 20 points above the lower edge of the block, and a seventh
    line has it below that edge: a month with seven races is drawn out
    of its block, with no check. *)
Theorem race_lines_fit_four {P : Platform} (tbl : race_table)
    (codes : gmap string string) (th : Theme) (r c m : Z)
    (st st' : State) (ops : list op) :
  0 <= r < 4 ->
  draw_block tbl codes th r c m st = Ok (ops, st') ->
  exists races,
    month_races tbl m = Ok races /\
    (forall k d name,
       nth_error races k = Some (d, name) ->
       exists x,
         In (DrawString x
               (line_y (list_y_top_of (block_y r) cell_h) k)
               (race_line d name))
            ops) /\
    (forall k,
       (k < 4)%nat ->
       PrimFloat.leb (PrimFloat.add (block_bottom r) (Zf 20))
         (line_y (list_y_top_of (block_y r) cell_h) k) = true) /\
    PrimFloat.ltb (line_y (list_y_top_of (block_y r) cell_h) 6)
      (block_bottom r) = true.
Proof.
  intros Hr Hdraw. unfold draw_block in Hdraw.
  destruct (draw_month tbl codes (block_x c) (block_y r) cell_w cell_h m
              th st) as [[mops st1]|] eqn:Hmonth;
    cbn [mbind result_bind] in Hdraw; [|discriminate].
  apply Ok_inj in Hdraw.
  assert (Hout : ops = block_outline th r c ++ mops) by congruence.
  clear Hdraw.
  apply draw_month_inv in Hmonth
    as (pre & gl & ti & ly & races & Hblock & Hops & _).
  pose proof (month_block_list_y _ _ _ _ _ _ _ _ _ _ _ _ Hblock) as Hly.
  apply month_block_inv in Hblock as (_ & _ & Hraces).
  exists races. split; [exact Hraces|].
  pose proof lines_fit_checked as Hfit.
  rewrite forallb_forall in Hfit.
  assert (Hrow : In r [0; 1; 2; 3]) by (cbn; lia).
  specialize (Hfit r Hrow). apply andb_true_iff in Hfit as [Hfour Hseven].
  rewrite forallb_forall in Hfour.
  split; [|split; [|exact Hseven]].
  - intros k d name Hk. exists ti. subst ops mops ly.
    apply in_or_app. right. apply in_or_app. right.
    pose proof (race_lines_nth ti (list_y_top_of (block_y r) cell_h)
                  races k d name Hk) as Hnth.
    apply nth_error_In in Hnth.
    rewrite <- (draw_race_list_strings codes gl ti _ races st) in Hnth.
    apply filter_In in Hnth. tauto.
  - intros k Hk. apply Hfour.
    cbn. lia.
Qed.

Lemma race_lines_fit_four_witness :
  exists races,
    month_races atlantis 3 = Ok races /\
    (forall k d name,
       nth_error races k = Some (d, name) ->
       exists x,
         In (DrawString x
               (line_y (list_y_top_of (block_y 0) cell_h) k)
               (race_line d name))
            atlantis_block) /\
    (forall k,
       (k < 4)%nat ->
       PrimFloat.leb (PrimFloat.add (block_bottom 0) (Zf 20))
         (line_y (list_y_top_of (block_y 0) cell_h) k) = true) /\
    PrimFloat.ltb (line_y (list_y_top_of (block_y 0) cell_h) 6)
      (block_bottom 0) = true.
Proof.
  apply (race_lines_fit_four (P := offline) atlantis COUNTRY_FLAG_CODES
           theme 0 2 3 offline_start offline_start atlantis_block).
  - lia.
  - vm_compute. reflexivity.
Defined.

(** ** Writes to the flag directory *)

Lemma local_path_of_inj (cc cc' : string) :
  local_path_of cc = local_path_of cc' -> cc = cc'.
Proof.
  unfold local_path_of. intros H.
  apply append_cancel_l in H. apply append_cancel_l in H.
  apply append_cancel_r in H. exact H.
Qed.

Section FlagWrites.
Context {P : Platform}.

(** What the network stage adds to the log. *)
Lemma fetch_flag_events (cc : string) (st : State) :
  exists tail,
    io_log (snd (fetch_flag cc st))
    = io_log st ++ EvUrlopen (url_of cc) :: tail /\
    (tail = []
     \/ tail = [EvMkdir flags_dir]
     \/ tail = [EvMkdir flags_dir; EvWrite (local_path_of cc)]) /\
    (forall h, fst (fetch_flag cc st) = Some h ->
       tail = [EvMkdir flags_dir; EvWrite (local_path_of cc)] /\
       exists data, hsrc h = FromBytes data).
Proof.
  unfold fetch_flag, fetch_failed.
  destruct (urlopen_read (world st) (url_of cc)) as [w1 [data|]].
  - cbn [world set_world log io_log].
    destruct (mkdir w1 flags_dir) as [w2 [|]].
    + destruct (write_bytes w2 (local_path_of cc) data) as [w3 [|]].
      * exists [EvMkdir flags_dir; EvWrite (local_path_of cc)].
        destruct (open_image_bytes data); cbn; rewrite <- !app_assoc;
          (split; [reflexivity|]); (split; [tauto|]); intros h Hh;
          [|discriminate Hh].
        injection Hh as <-. split; [reflexivity|]. exists data. reflexivity.
      * exists [EvMkdir flags_dir; EvWrite (local_path_of cc)].
        cbn. rewrite <- !app_assoc. split; [reflexivity|].
        split; [tauto|]. intros h Hh. discriminate Hh.
    + exists [EvMkdir flags_dir]. cbn. rewrite <- !app_assoc.
      split; [reflexivity|]. split; [tauto|]. intros h Hh. discriminate Hh.
  - exists []. cbn. split; [reflexivity|]. split; [tauto|].
    intros h Hh. discriminate Hh.
Qed.

Lemma is_write_for_path (cc cc' : string) :
  is_write_for cc (EvWrite (local_path_of cc')) = bool_decide (cc = cc').
Proof.
  cbn.
  destruct (String.eqb_spec (local_path_of cc') (local_path_of cc))
    as [Heq|Hne].
  - apply local_path_of_inj in Heq. subst.
    rewrite bool_decide_eq_true_2; reflexivity.
  - rewrite bool_decide_eq_false_2; [reflexivity|]. intros ->. apply Hne.
    reflexivity.
Qed.

(** What a call adds to the log has no more writes of a file than
    requests for it. *)
Lemma get_flag_image_events (cc' : string) (st : State) :
  exists added,
    io_log (snd (get_flag_image cc' st)) = io_log st ++ added /\
    forall cc,
      (length (List.filter (is_write_for cc) added)
       <= length (List.filter (is_request_for cc) added))%nat.
Proof.
  unfold get_flag_image.
  destruct (_flag_cache st !! cc') as [v|].
  - exists []. rewrite app_nil_r. split; [reflexivity|]. intros cc. cbn. lia.
  - cbn [world log].
    assert (Hfetch : forall st0 probes,
              io_log st0 = io_log st ++ probes ->
              (forall cc, List.filter (is_write_for cc) probes = []) ->
              exists added,
                io_log (snd (fetch_flag cc' st0)) = io_log st ++ added /\
                forall cc,
                  (length (List.filter (is_write_for cc) added)
                   <= length (List.filter (is_request_for cc) added))%nat).
    { intros st0 probes Hst0 Hprobes.
      destruct (fetch_flag_events cc' st0) as (tail & Hlog & Htail & _).
      exists (probes ++ EvUrlopen (url_of cc') :: tail).
      rewrite Hlog, Hst0, <- app_assoc. split; [reflexivity|].
      intros cc. rewrite !List.filter_app, !length_app, Hprobes.
      cbn [List.filter length Nat.add is_write_for].
      rewrite is_request_for_url.
      destruct Htail as [->|[->| ->]]; cbn [List.filter is_write_for].
      - cbn. lia.
      - cbn. lia.
      - change (is_write_for cc (EvWrite (local_path_of cc')))
          with (is_write_for cc (EvWrite (local_path_of cc'))).
        fold (is_write_for cc (EvWrite (local_path_of cc'))).
        rewrite is_write_for_path.
        destruct (bool_decide (cc = cc')); cbn; lia. }
    destruct (path_exists (world st) (local_path_of cc')).
    + destruct (open_image_file (world st) (local_path_of cc')).
      * exists [EvExists (local_path_of cc'); EvOpenFile (local_path_of cc')].
        cbn. rewrite <- !app_assoc. split; [reflexivity|]. intros cc. lia.
      * apply (Hfetch _ [EvExists (local_path_of cc');
                         EvOpenFile (local_path_of cc')]).
        -- cbn. rewrite <- !app_assoc. reflexivity.
        -- intros cc. reflexivity.
    + apply (Hfetch _ [EvExists (local_path_of cc')]).
      * reflexivity.
      * intros cc. reflexivity.
Qed.

Lemma written_after_fetch_step (cc' : string) (st : State) :
  written_after_fetch st ->
  written_after_fetch (snd (get_flag_image cc' st)).
Proof.
  intros Hinv cc. specialize (Hinv cc).
  destruct (get_flag_image_events cc' st) as (added & Hlog & Hadded).
  unfold writes_for, requests_for in *.
  rewrite Hlog, !List.filter_app, !length_app. specialize (Hadded cc). lia.
Qed.

Lemma written_after_fetch_run (ccs : list string) (st : State) :
  written_after_fetch st -> written_after_fetch (get_flag_images ccs st).
Proof.
  revert st. induction ccs as [|cc ccs IH]; intros st Hinv; [exact Hinv|].
  cbn. apply IH, written_after_fetch_step, Hinv.
Qed.

End FlagWrites.

(** X13: in a run that starts with an empty cache, a flag file is
    written only after a network request for the same code, so at most
    once per code; and a first resolution that returns an image either
    read it from the local file, with no request and no write, or
    fetched it and wrote that file. *)
Theorem flag_file_written_after_fetch {P : Platform} (w : World)
    (ccs : list string) (cc : string) (st : State) :
  let run := get_flag_images ccs (init_state w) in
  (writes_for cc run <= requests_for cc run)%nat /\
  (writes_for cc run <= 1)%nat /\
  (_flag_cache st !! cc = None ->
   forall h,
     fst (get_flag_image cc st) = Some h ->
     match hsrc h with
     | FromFile path =>
         path = local_path_of cc /\
         requests_for cc (snd (get_flag_image cc st)) = requests_for cc st /\
         writes_for cc (snd (get_flag_image cc st)) = writes_for cc st
     | FromBytes _ =>
         requests_for cc (snd (get_flag_image cc st))
         = S (requests_for cc st) /\
         writes_for cc (snd (get_flag_image cc st)) = S (writes_for cc st)
     end).
Proof.
  cbv zeta.
  assert (Hwr : written_after_fetch (get_flag_images ccs (init_state w))).
  { apply written_after_fetch_run. intros cc0. cbn. lia. }
  pose proof (fetched_once_run ccs (init_state w) (fetched_once_init w) cc)
    as [Hreq _].
  split; [apply Hwr|]. split; [specialize (Hwr cc); lia|].
  intros Hnone h Hh. unfold get_flag_image in *. rewrite Hnone in *.
  cbn [world log] in *.
  assert (Hfetch : forall st0 probes,
            io_log st0 = io_log st ++ probes ->
            List.filter (is_write_for cc) probes = [] ->
            List.filter (is_request_for cc) probes = [] ->
            fst (fetch_flag cc st0) = Some h ->
            match hsrc h with
            | FromFile path =>
                path = local_path_of cc /\
                requests_for cc (snd (fetch_flag cc st0))
                = requests_for cc st /\
                writes_for cc (snd (fetch_flag cc st0)) = writes_for cc st
            | FromBytes _ =>
                requests_for cc (snd (fetch_flag cc st0))
                = S (requests_for cc st) /\
                writes_for cc (snd (fetch_flag cc st0))
                = S (writes_for cc st)
            end).
  { intros st0 probes Hst0 Hw Hr Hsome.
    destruct (fetch_flag_events cc st0) as (tail & Hlog & _ & Hdone).
    destruct (Hdone h Hsome) as (-> & data & Hsrc). rewrite Hsrc.
    unfold requests_for, writes_for. rewrite Hlog, Hst0.
    rewrite <- !app_assoc, !List.filter_app, !length_app, Hw, Hr.
    cbn [List.filter length Nat.add app].
    rewrite is_request_for_url, is_write_for_path.
    rewrite !bool_decide_eq_true_2 by reflexivity.
    cbn [is_request_for is_write_for List.filter length]. lia. }
  destruct (path_exists (world st) (local_path_of cc)).
  - destruct (open_image_file (world st) (local_path_of cc)).
    + cbn in Hh. injection Hh as <-. cbn [hsrc].
      split; [reflexivity|]. unfold requests_for, writes_for. cbn.
      rewrite <- !app_assoc, !List.filter_app, !length_app. cbn. lia.
    + apply (Hfetch _ [EvExists (local_path_of cc);
                       EvOpenFile (local_path_of cc)]); try reflexivity.
      * cbn. rewrite <- !app_assoc. reflexivity.
      * exact Hh.
  - apply (Hfetch _ [EvExists (local_path_of cc)]); try reflexivity.
    exact Hh.
Qed.

(** ** The blocks on the page *)

(** X14: the twelve blocks lie between the page margins and under the
    title, and no two of them touch: in a row each block ends before
    the next one starts, and each row of blocks ends above the next
    row. *)
Theorem blocks_inside_page_and_apart (th : Theme) (r c : Z) :
  0 <= r < 4 ->
  0 <= c < 3 ->
  In (RoundRect (block_x c) (block_bottom r) cell_w cell_h (Zf 10) 1 0)
     (block_outline th r c) /\
  PrimFloat.leb margin (block_x c) = true /\
  PrimFloat.leb (PrimFloat.add (block_x c) cell_w)
                (PrimFloat.sub WIDTH margin) = true /\
  PrimFloat.leb margin (block_bottom r) = true /\
  PrimFloat.leb (block_y r) page_grid_top = true /\
  PrimFloat.ltb page_grid_top (PrimFloat.sub header_y (Zf 48)) = true /\
  (c < 2 ->
   PrimFloat.ltb (PrimFloat.add (block_x c) cell_w) (block_x (c + 1))
   = true) /\
  (r < 3 -> PrimFloat.ltb (block_y (r + 1)) (block_bottom r) = true).
Proof.
  intros Hr Hc.
  assert (Hrs : r = 0 \/ r = 1 \/ r = 2 \/ r = 3) by lia.
  assert (Hcs : c = 0 \/ c = 1 \/ c = 2) by lia.
  split; [right; right; left; reflexivity|].
  destruct Hrs as [->|[->|[->| ->]]]; destruct Hcs as [->|[->| ->]];
    repeat split; try (vm_compute; reflexivity); intros; lia.
Qed.

Lemma blocks_inside_page_and_apart_witness :
  In (RoundRect (block_x 1) (block_bottom 2) cell_w cell_h (Zf 10) 1 0)
     (block_outline theme 2 1) /\
  PrimFloat.leb margin (block_x 1) = true /\
  PrimFloat.leb (PrimFloat.add (block_x 1) cell_w)
                (PrimFloat.sub WIDTH margin) = true /\
  PrimFloat.leb margin (block_bottom 2) = true /\
  PrimFloat.leb (block_y 2) page_grid_top = true /\
  PrimFloat.ltb page_grid_top (PrimFloat.sub header_y (Zf 48)) = true /\
  (1 < 2 ->
   PrimFloat.ltb (PrimFloat.add (block_x 1) cell_w) (block_x (1 + 1))
   = true) /\
  (2 < 3 -> PrimFloat.ltb (block_y (2 + 1)) (block_bottom 2) = true).
Proof. apply (blocks_inside_page_and_apart theme 2 1); lia. Defined.


(** ** Drawing again *)

Section DrawAgain.
Context {P : Platform}.
Variable tbl : race_table.
Variable codes : gmap string string.

Lemma extends_refl (st : State) : extends st st.
Proof. intros cc v H. exact H. Qed.

Lemma extends_trans (a b c : State) :
  extends a b -> extends b c -> extends a c.
Proof. intros Hab Hbc cc v H. apply Hbc, Hab, H. Qed.

Lemma get_flag_images_extends (ccs : list string) (st : State) :
  extends st (get_flag_images ccs st).
Proof. intros cc v H. apply get_flag_images_keep, H. Qed.

Lemma draw_race_list_extends (gl ti ly : float) (races : list (Z * string))
    (st : State) :
  extends st (snd (draw_race_list codes gl ti ly races st)).
Proof. rewrite draw_race_list_state. apply get_flag_images_extends. Qed.

(** With every code it tries in the cache, the loop over the races
    draws from the cache and leaves the state as it is. *)
Lemma draw_race_list_cached (gl ti ly : float) (races : list (Z * string))
    (st : State) :
  (forall cc, In cc (codes_tried codes races) ->
              exists v, _flag_cache st !! cc = Some v) ->
  draw_race_list codes gl ti ly races st
  = (race_list_with (_flag_cache st) codes gl ti ly races, st).
Proof.
  revert ly. induction races as [|[d n] races IH]; intros ly Hcached.
  - reflexivity.
  - cbn [draw_race_list race_list_with].
    assert (Hrest : forall cc, In cc (codes_tried codes races) ->
                               exists v, _flag_cache st !! cc = Some v).
    { intros cc Hcc. apply Hcached. cbn [codes_tried flat_map].
      apply in_or_app. right. exact Hcc. }
    destruct (codes !! n) as [cc|] eqn:Hn.
    + destruct (py.truthy cc) eqn:Htr.
      * destruct (Hcached cc) as [v Hv].
        { cbn [codes_tried flat_map snd]. rewrite Hn, Htr. left.
          reflexivity. }
        rewrite (get_flag_image_cached cc v st Hv), Hv.
        destruct v; cbv beta iota; rewrite (IH _ Hrest); reflexivity.
      * rewrite (IH _ Hrest). reflexivity.
    + rewrite (IH _ Hrest). reflexivity.
Qed.

Lemma race_list_with_ext (c1 c2 : gmap string (option handle))
    (gl ti ly : float) (races : list (Z * string)) :
  (forall cc, In cc (codes_tried codes races) -> c1 !! cc = c2 !! cc) ->
  race_list_with c1 codes gl ti ly races
  = race_list_with c2 codes gl ti ly races.
Proof.
  revert ly. induction races as [|[d n] races IH]; intros ly Hagree.
  - reflexivity.
  - cbn [race_list_with].
    rewrite (IH (PrimFloat.sub ly (Zf 10))).
    + destruct (codes !! n) as [cc|] eqn:Hn; [|reflexivity].
      destruct (py.truthy cc) eqn:Htr; [|reflexivity].
      rewrite (Hagree cc); [reflexivity|].
      cbn [codes_tried flat_map snd]. rewrite Hn, Htr. left. reflexivity.
    + intros cc Hcc. apply Hagree. cbn [codes_tried flat_map].
      apply in_or_app. right. exact Hcc.
Qed.

Lemma get_flag_images_cached (ccs : list string) (st : State) (cc : string) :
  In cc ccs -> exists v, _flag_cache (get_flag_images ccs st) !! cc = Some v.
Proof.
  intros Hin.
  assert (Hdom : cc ∈ dom (_flag_cache (get_flag_images ccs st))).
  { rewrite get_flag_images_dom. apply elem_of_union_l.
    apply elem_of_list_to_set, list_elem_of_In. exact Hin. }
  apply elem_of_dom in Hdom as [v Hv]. exists v. exact Hv.
Qed.

(** What the loop over the races draws is what the cache it ends with
    gives for each code. *)
Lemma draw_race_list_final (gl ti ly : float) (races : list (Z * string))
    (st st' : State) (ops : list op) :
  draw_race_list codes gl ti ly races st = (ops, st') ->
  ops = race_list_with (_flag_cache st') codes gl ti ly races.
Proof.
  revert ly st st' ops. induction races as [|[d n] races IH];
    intros ly st st' ops Hrun.
  - cbn in Hrun. injection Hrun as <- _. reflexivity.
  - cbn [draw_race_list] in Hrun. cbn [race_list_with].
    destruct (codes !! n) as [cc|] eqn:Hn.
    + destruct (py.truthy cc) eqn:Htr.
      * destruct (get_flag_image cc st) as [img st1] eqn:Hget.
        assert (Hstored : _flag_cache st1 !! cc = Some img).
        { pose proof (get_flag_image_stored cc st) as H.
          rewrite Hget in H. exact H. }
        pose proof (draw_race_list_extends gl ti
                      (PrimFloat.sub ly (Zf 10)) races st1) as Hkeep.
        destruct img as [hd|]; cbv beta iota in Hrun;
          destruct (draw_race_list codes gl ti (PrimFloat.sub ly (Zf 10))
                      races st1) as [rest st2] eqn:Hrest;
          cbn [snd] in Hkeep; apply IH in Hrest;
          injection Hrun as <- <-;
          rewrite (Hkeep cc _ Hstored), <- Hrest; reflexivity.
      * destruct (draw_race_list codes gl ti (PrimFloat.sub ly (Zf 10))
                    races st) as [rest st2] eqn:Hrest.
        apply IH in Hrest. injection Hrun as <- <-. rewrite <- Hrest.
        reflexivity.
    + destruct (draw_race_list codes gl ti (PrimFloat.sub ly (Zf 10))
                  races st) as [rest st2] eqn:Hrest.
      apply IH in Hrest. injection Hrun as <- <-. rewrite <- Hrest.
      reflexivity.
Qed.

(** In any later state of the run the loop draws the same and changes
    nothing. *)
Lemma draw_race_list_later (gl ti ly : float) (races : list (Z * string))
    (st st' : State) :
  extends (snd (draw_race_list codes gl ti ly races st)) st' ->
  draw_race_list codes gl ti ly races st'
  = (fst (draw_race_list codes gl ti ly races st), st').
Proof.
  intros Hext.
  assert (Hcached : forall cc, In cc (codes_tried codes races) ->
            exists v,
              _flag_cache (snd (draw_race_list codes gl ti ly races st))
                !! cc = Some v).
  { intros cc Hcc. rewrite draw_race_list_state.
    apply get_flag_images_cached, Hcc. }
  rewrite draw_race_list_cached.
  2:{ intros cc Hcc. destruct (Hcached cc Hcc) as [v Hv]. exists v.
      apply Hext, Hv. }
  f_equal.
  destruct (draw_race_list codes gl ti ly races st) as [ops st1] eqn:Hrun.
  cbn [fst snd] in *.
  rewrite (draw_race_list_final _ _ _ _ _ _ _ Hrun).
  apply race_list_with_ext. intros cc Hcc.
  destruct (Hcached cc Hcc) as [v Hv]. rewrite Hv. apply Hext, Hv.
Qed.

(** A block drawn again in a later state of the run is the same block
    and changes nothing. *)
Lemma draw_month_later (x y w h : float) (month : Z) (th : Theme)
    (st st1 st' : State) (ops : list op) :
  draw_month tbl codes x y w h month th st = Ok (ops, st1) ->
  extends st1 st' ->
  draw_month tbl codes x y w h month th st' = Ok (ops, st').
Proof.
  intros Hdraw Hext.
  apply draw_month_inv in Hdraw
    as (pre & gl & ti & ly & races & Hblock & Hops & Hst).
  unfold draw_month. rewrite Hblock. cbn [mbind result_bind].
  rewrite (draw_race_list_later gl ti ly races st st')
    by (rewrite <- Hst; exact Hext).
  rewrite Hops. reflexivity.
Qed.

Lemma draw_month_extends (x y w h : float) (month : Z) (th : Theme)
    (st st1 : State) (ops : list op) :
  draw_month tbl codes x y w h month th st = Ok (ops, st1) ->
  extends st st1.
Proof.
  intros Hdraw.
  apply draw_month_inv in Hdraw
    as (pre & gl & ti & ly & races & _ & _ & Hst).
  rewrite Hst. apply draw_race_list_extends.
Qed.

Lemma draw_block_later (th : Theme) (r c m : Z) (st st1 st' : State)
    (ops : list op) :
  draw_block tbl codes th r c m st = Ok (ops, st1) ->
  extends st1 st' ->
  draw_block tbl codes th r c m st' = Ok (ops, st').
Proof.
  unfold draw_block. intros Hdraw Hext.
  destruct (draw_month tbl codes (block_x c) (block_y r) cell_w cell_h m
              th st) as [[mops st2]|] eqn:Hmonth;
    cbn [mbind result_bind] in Hdraw; [|discriminate].
  apply Ok_inj in Hdraw.
  assert (Hst : st2 = st1) by congruence. subst st2.
  rewrite (draw_month_later _ _ _ _ _ _ _ _ _ _ Hmonth Hext).
  cbn [mbind result_bind]. congruence.
Qed.

Lemma draw_block_extends (th : Theme) (r c m : Z) (st st1 : State)
    (ops : list op) :
  draw_block tbl codes th r c m st = Ok (ops, st1) -> extends st st1.
Proof.
  unfold draw_block. intros Hdraw.
  destruct (draw_month tbl codes (block_x c) (block_y r) cell_w cell_h m
              th st) as [[mops st2]|] eqn:Hmonth;
    cbn [mbind result_bind] in Hdraw; [|discriminate].
  apply Ok_inj in Hdraw.
  assert (Hst : st2 = st1) by congruence. subst st2.
  apply (draw_month_extends _ _ _ _ _ _ _ _ _ Hmonth).
Qed.

Lemma run_blocks_extends (th : Theme) (blocks : list (Z * Z * Z))
    (ops0 ops : list op) (st st1 : State) :
  run_blocks (draw_block tbl codes th) blocks ops0 st = Ok (ops, st1) ->
  extends st st1.
Proof.
  revert ops0 st. induction blocks as [|[[r c] m] blocks IH];
    intros ops0 st Hrun.
  - apply Ok_inj in Hrun. assert (st = st1) by congruence. subst.
    apply extends_refl.
  - cbn [run_blocks] in Hrun.
    destruct (draw_block tbl codes th r c m st) as [[bops st2]|] eqn:Hblock;
      cbn [mbind result_bind] in Hrun; [|discriminate].
    eapply extends_trans.
    + apply (draw_block_extends _ _ _ _ _ _ _ Hblock).
    + apply (IH _ _ Hrun).
Qed.

Lemma run_blocks_later (th : Theme) (blocks : list (Z * Z * Z))
    (ops0 ops : list op) (st st1 st' : State) :
  run_blocks (draw_block tbl codes th) blocks ops0 st = Ok (ops, st1) ->
  extends st1 st' ->
  run_blocks (draw_block tbl codes th) blocks ops0 st' = Ok (ops, st').
Proof.
  revert ops0 st. induction blocks as [|[[r c] m] blocks IH];
    intros ops0 st Hrun Hext.
  - apply Ok_inj in Hrun. cbn [run_blocks]. congruence.
  - cbn [run_blocks] in Hrun |- *.
    destruct (draw_block tbl codes th r c m st) as [[bops st2]|] eqn:Hblock;
      cbn [mbind result_bind] in Hrun; [|discriminate].
    rewrite (draw_block_later _ _ _ _ _ _ st' _ Hblock).
    + cbn [mbind result_bind]. apply (IH _ _ Hrun Hext).
    + eapply extends_trans; [|exact Hext].
      apply (run_blocks_extends _ _ _ _ _ _ Hrun).
Qed.

Lemma draw_block_final (th : Theme) (r c m : Z) (st st1 st' : State)
    (ops : list op) :
  draw_block tbl codes th r c m st = Ok (ops, st1) ->
  extends st1 st' ->
  block_with tbl codes (_flag_cache st') th (r, c, m) = Ok ops.
Proof.
  unfold draw_block, block_with. intros Hdraw Hext.
  destruct (draw_month tbl codes (block_x c) (block_y r) cell_w cell_h m
              th st) as [[mops st2]|] eqn:Hmonth;
    cbn [mbind result_bind] in Hdraw; [|discriminate].
  apply Ok_inj in Hdraw.
  assert (Hst : st2 = st1) by congruence. subst st2.
  assert (Hops : ops = block_outline th r c ++ mops) by congruence.
  apply draw_month_inv in Hmonth
    as (pre & gl & ti & ly & races & Hblock & Hmops & Hst).
  rewrite Hblock. cbn [mbind result_bind]. rewrite Hops, Hmops.
  destruct (draw_race_list codes gl ti ly races st) as [lops st2] eqn:Hrun.
  cbn [fst snd] in *. subst st2.
  rewrite (draw_race_list_final _ _ _ _ _ _ _ Hrun).
  rewrite (race_list_with_ext (_flag_cache st') (_flag_cache st1)
             gl ti ly races); [reflexivity|].
  intros cc Hcc.
  assert (Hin : exists v, _flag_cache st1 !! cc = Some v).
  { pose proof (draw_race_list_state codes gl ti ly races st) as Hstate.
    rewrite Hrun in Hstate. cbn [snd] in Hstate. rewrite Hstate.
    apply get_flag_images_cached, Hcc. }
  destruct Hin as [v Hv]. rewrite Hv. apply Hext, Hv.
Qed.

Lemma run_blocks_final (th : Theme) (blocks : list (Z * Z * Z))
    (ops0 ops : list op) (st st1 st' : State) :
  run_blocks (draw_block tbl codes th) blocks ops0 st = Ok (ops, st1) ->
  extends st1 st' ->
  exists drawn,
    py.list_comp
      (fun b => o ← block_with tbl codes (_flag_cache st') th b; Ok (Some o))
      blocks = Ok drawn /\
    ops = ops0 ++ concat drawn.
Proof.
  revert ops0 st. induction blocks as [|[[r c] m] blocks IH];
    intros ops0 st Hrun Hext.
  - apply Ok_inj in Hrun. exists []. split; [reflexivity|].
    cbn [concat]. rewrite app_nil_r. congruence.
  - cbn [run_blocks] in Hrun.
    destruct (draw_block tbl codes th r c m st) as [[bops st2]|] eqn:Hblock;
      cbn [mbind result_bind] in Hrun; [|discriminate].
    pose proof (run_blocks_extends _ _ _ _ _ _ Hrun) as Hkeep.
    destruct (IH _ _ Hrun Hext) as (drawn & Hcomp & Hops).
    exists (bops :: drawn). split.
    + cbn [py.list_comp].
      rewrite (draw_block_final _ _ _ _ _ _ st' _ Hblock
                 (extends_trans _ _ _ Hkeep Hext)).
      cbn [mbind result_bind]. rewrite Hcomp. reflexivity.
    + cbn [concat]. rewrite Hops, <- app_assoc. reflexivity.
Qed.

End DrawAgain.

(** X15: a poster drawn again, in the state the first drawing ended in
    or in any later state that still has its cache entries, is drawn
    with the same operations and leaves the state as it is: no request,
    no file written, and a flag that failed is not tried again. *)
Theorem poster_drawn_again {P : Platform} (tbl : race_table)
    (codes : gmap string string) (th : Theme) (st st1 st' : State)
    (ops : list op) :
  make_poster tbl codes th st = Ok (ops, st1) ->
  extends st1 st' ->
  make_poster tbl codes th st' = Ok (ops, st').
Proof.
  unfold make_poster. rewrite !poster_loop_row_major by (unfold cols; lia).
  intros Hdraw Hext.
  destruct (run_blocks (draw_block tbl codes th) (row_major rows cols) []
              st) as [[blocks st2]|] eqn:Hrun; [|discriminate].
  cbn [with_month mbind result_bind] in Hdraw. apply Ok_inj in Hdraw.
  assert (Hst : st2 = st1) by congruence. subst st2.
  rewrite (run_blocks_later tbl codes th _ _ _ _ _ st' Hrun Hext).
  cbn [with_month mbind result_bind]. congruence.
Qed.

Lemma poster_drawn_again_witness :
  exists ops st1,
    online_poster = Ok (ops, st1) /\
    make_poster (P := online) race_sundays COUNTRY_FLAG_CODES theme st1
    = Ok (ops, st1).
Proof.
  destruct online_poster as [[ops st1]|e] eqn:Hdraw.
  - exists ops, st1. split; [reflexivity|].
    apply (poster_drawn_again race_sundays COUNTRY_FLAG_CODES theme
             online_start st1 st1 ops Hdraw).
    intros cc v Hv. exact Hv.
  - vm_compute in Hdraw. discriminate Hdraw.
Defined.

(** X16: what [make_poster] draws is the drawing of the table with the
    flags of the cache it ends with: a flag image stands before a race
    line exactly when the final cache holds an image for the race's
    code, and it is that image, so that races with the same code show
    the same image or none; the disk and the network matter only
    through that cache. *)
Theorem poster_drawn_from_final_cache {P : Platform} (tbl : race_table)
    (codes : gmap string string) (th : Theme) (st st1 : State)
    (ops : list op) :
  make_poster tbl codes th st = Ok (ops, st1) ->
  poster_with tbl codes (_flag_cache st1) th = Ok ops.
Proof.
  unfold make_poster, poster_with.
  rewrite poster_loop_row_major by (unfold cols; lia).
  intros Hdraw.
  destruct (run_blocks (draw_block tbl codes th) (row_major rows cols) []
              st) as [[blocks st2]|] eqn:Hrun; [|discriminate].
  cbn [with_month mbind result_bind] in Hdraw. apply Ok_inj in Hdraw.
  assert (Hst : st2 = st1) by congruence. subst st2.
  destruct (run_blocks_final tbl codes th _ _ _ _ _ st1 Hrun
              (extends_refl st1)) as (drawn & Hcomp & Hblocks).
  rewrite Hcomp. cbn [mbind result_bind].
  cbn [app] in Hblocks. rewrite <- Hblocks. congruence.
Qed.

Lemma poster_drawn_from_final_cache_witness :
  exists ops st1,
    online_poster = Ok (ops, st1) /\
    poster_with (P := online) race_sundays COUNTRY_FLAG_CODES
      (_flag_cache st1) theme = Ok ops.
Proof.
  destruct online_poster as [[ops st1]|e] eqn:Hdraw.
  - exists ops, st1. split; [reflexivity|].
    exact (poster_drawn_from_final_cache race_sundays COUNTRY_FLAG_CODES
             theme online_start st1 ops Hdraw).
  - vm_compute in Hdraw. discriminate Hdraw.
Defined.

(** ** The text of a race line *)

Lemma fmt_02d_two_digits (d : Z) :
  0 <= d <= 99 -> py.fmt_02d d = two_digits d.
Proof.
  intros Hd.
  assert (Hall : forallb
            (fun k => String.eqb (py.fmt_02d (Z.of_nat k))
                                 (two_digits (Z.of_nat k)))
            (seq 0 100) = true) by (vm_compute; reflexivity).
  rewrite forallb_forall in Hall.
  specialize (Hall (Z.to_nat d)). rewrite Z2Nat.id in Hall by lia.
  apply String.eqb_eq, Hall, in_seq. lia.
Qed.

Lemma two_digits_inj (d d' : Z) :
  0 <= d <= 99 -> 0 <= d' <= 99 -> two_digits d = two_digits d' -> d = d'.
Proof.
  unfold two_digits. intros Hd Hd' Heq.
  injection Heq as Htens Hunits.
  apply (f_equal nat_of_ascii) in Htens, Hunits.
  pose proof (Z.mod_pos_bound d 10 ltac:(lia)) as Hr.
  pose proof (Z.mod_pos_bound d' 10 ltac:(lia)) as Hr'.
  pose proof (Z.div_mod d 10 ltac:(lia)) as Hdm.
  pose proof (Z.div_mod d' 10 ltac:(lia)) as Hdm'.
  assert (Hq : 0 <= d / 10 <= 9) by lia.
  assert (Hq' : 0 <= d' / 10 <= 9) by lia.
  rewrite !nat_ascii_embedding in Htens, Hunits by lia.
  assert (Hqq : d / 10 = d' / 10) by lia.
  assert (Hrr : d mod 10 = d' mod 10) by lia.
  rewrite Hdm, Hdm', Hqq, Hrr. reflexivity.
Qed.

(** X17: for a day from 0 to 99, so for every day of a valid date, the
    text of a race line is the day in exactly two digits, with a leading
    zero below 10, then the dash between two spaces, then the name as
    it is in the table; the names of all lines start in the same column
    and both the day and the name can be read back from the line. *)
Theorem race_line_two_digit_day (d d' : Z) (name name' : string) :
  0 <= d <= 99 -> 0 <= d' <= 99 ->
  race_line d name
  = String.append (two_digits d) (String.append " – " name) /\
  (race_line d name = race_line d' name' -> d = d' /\ name = name').
Proof.
  intros Hd Hd'. unfold race_line.
  rewrite (fmt_02d_two_digits d Hd), (fmt_02d_two_digits d' Hd').
  split; [reflexivity|].
  unfold two_digits. cbn [String.append]. intros Heq.
  injection Heq as Htens Hunits Hname. split; [|exact Hname].
  apply (two_digits_inj d d' Hd Hd'). unfold two_digits.
  f_equal; [exact Htens|]. f_equal. exact Hunits.
Qed.

Lemma race_line_two_digit_day_witness :
  race_line 8 "AUSTRALIA"
  = String.append (two_digits 8) (String.append " – " "AUSTRALIA") /\
  (race_line 8 "AUSTRALIA" = race_line 15 "CHINA" ->
   8 = 15 /\ "AUSTRALIA" = "CHINA").
Proof.
  apply (race_line_two_digit_day 8 15 "AUSTRALIA" "CHINA"); lia.
Defined.
